(** * Nomad server utilities (nomad/util.go): member classification and
      version gates

    A shallow embedding of [isNomadServer], [ServersMeetMinimumVersion],
    [slicesMatch], [getNodeForRpc] and [nodeSupportsRpc], with the
    properties the specification states about them.

    Conventions.
    - A Go [string] is a [string] (a sequence of bytes).
    - A Go [int] is a [Z]; the platform is 64-bit ([intSize]).
    - A Go slice is [slice A]: [None] is the [nil] slice, [Some l] a
      non-nil slice with the elements [l].
    - A Go [map[string]string] is a [gmap string string]; [m[k]] is
      [index m k] and the two-result form [v, ok := m[k]] is [m !! k].
    - A result [(T, error)] of which only [err != nil] is inspected is an
      [option T]; a pointer that may be [nil] is an [option].
    - The packages the file imports but does not define are interfaces:
      [NetPkg] for [net.ParseIP] and [VersionPkg] for go-version, over any
      type of versions. The theorems hold for every implementation, and
      [netref] and [goversion] give executable reference implementations,
      on which the sample records at the end are run. [strconv.Atoi] is
      modelled directly. *)

From Stdlib Require Import ZArith String Ascii List Bool Lia.
From stdpp Require Import gmap strings list pretty.

Open Scope string_scope.
Open Scope Z_scope.

(** ** Go values *)

Definition slice (A : Type) : Type := option (list A).

(** [m[k]] on a map of strings: the zero value [""] when [k] is absent. *)
Definition index (m : gmap string string) (k : string) : string :=
  default "" (m !! k).

(** Go's builtin [error], as far as this file builds or names its values:
    the two sentinels of [nomad/structs], the result of [fmt.Errorf] kept as
    the call that made it, and any other error by its message. *)
Inductive error : Type :=
  | ErrUnknownNomadVersion
  | ErrNodeLacksRpc
  | Errorf (format : string) (args : list string)
  | errorString (msg : string).

(** ** strconv *)

Module strconv.

Definition intSize : Z := 64.

Inductive NumError : Type := ErrSyntax | ErrRange.

Definition isDigit (c : ascii) : bool :=
  (48 <=? Z.of_nat (nat_of_ascii c)) && (Z.of_nat (nat_of_ascii c) <=? 57).

Definition digitVal (c : ascii) : Z := Z.of_nat (nat_of_ascii c) - 48.

(** The digit loop of [ParseUint] in base 10 over a [uint64] accumulator
    [n]: a byte that is not a digit is a syntax error with value 0; an
    accumulator that would pass [maxVal] is a range error with value
    [maxVal], reported before the rest of the string is looked at. *)
Fixpoint parseUintLoop (maxVal n : Z) (s : string) : Z * option NumError :=
  match s with
  | EmptyString => (n, None)
  | String c r =>
      if negb (isDigit c) then (0, Some ErrSyntax)
      else if (2 ^ 64 - 1) / 10 + 1 <=? n then (maxVal, Some ErrRange)
      else
        let n1 := n * 10 + digitVal c in
        if (2 ^ 64 <=? n1) || (maxVal <? n1) then (maxVal, Some ErrRange)
        else parseUintLoop maxVal n1 r
  end.

(** [ParseUint(s, 10, bitSize)] *)
Definition ParseUint (s : string) (bitSize : Z) : Z * option NumError :=
  match s with
  | EmptyString => (0, Some ErrSyntax)
  | _ =>
      let bitSize := if bitSize =? 0 then intSize else bitSize in
      parseUintLoop (2 ^ bitSize - 1) 0 s
  end.

(** [ParseInt(s, 10, bitSize)] *)
Definition ParseInt (s : string) (bitSize : Z) : Z * option NumError :=
  match s with
  | EmptyString => (0, Some ErrSyntax)
  | String c r =>
      let '(neg, body) :=
        if Ascii.eqb c "+" then (false, r)
        else if Ascii.eqb c "-" then (true, r)
        else (false, s) in
      match ParseUint body bitSize with
      | (_, Some ErrSyntax) => (0, Some ErrSyntax)
      | (un, _) =>
          let bitSize := if bitSize =? 0 then intSize else bitSize in
          let cutoff := 2 ^ (bitSize - 1) in
          if negb neg && (cutoff <=? un) then (cutoff - 1, Some ErrRange)
          else if neg && (cutoff <? un) then (- cutoff, Some ErrRange)
          else (if neg then - un else un, None)
      end
  end.

(** [Atoi(s)] is [ParseInt(s, 10, 0)] converted to [int]; only whether it
    failed is kept of the error. *)
Definition Atoi (s : string) : option Z :=
  match ParseInt s 0 with
  | (i64, None) => Some i64
  | (_, Some _) => None
  end.

End strconv.

(** ** net *)

Module net.

(** [net.IP] is a byte slice. *)
Definition IP : Type := slice Z.

Module TCPAddr.
Record t : Type := mk { IP : net.IP; Port : Z; Zone : string }.
End TCPAddr.

End net.

(** [net.ParseIP]: [nil] when the string is not an IP literal. The empty
    string is not one. *)
Class NetPkg : Type := {
  ParseIP : string -> net.IP;
  ParseIP_empty : ParseIP "" = None
}.

(** ** github.com/hashicorp/go-version *)

Class VersionPkg (Version : Type) : Type := {
  (** [NewVersion(v)]: [None] when it returns an error. *)
  NewVersion : string -> option Version;
  (** [v.LessThan(o)] *)
  LessThan : Version -> Version -> bool;
  (** [v.Segments()] *)
  Segments : Version -> slice Z
}.

(** ** serf *)

Module serf.

Inductive MemberStatus : Type :=
  | StatusNone
  | StatusAlive
  | StatusLeaving
  | StatusLeft
  | StatusFailed.

#[global] Instance MemberStatus_eq_dec : EqDecision MemberStatus.
Proof. solve_decision. Defined.

(** The fields of [serf.Member] that util.go reads, and its own port. *)
Record Member : Type := mkMember {
  Name : string;
  Addr : net.IP;
  Port : Z;
  Tags : gmap string string;
  Status : MemberStatus
}.

End serf.

(** ** nomad/structs and nomad/state *)

Module structs.

Record Node : Type := mkNode {
  ID : string;
  Attributes : gmap string string
}.

End structs.

Module state.

(** A snapshot is used through [NodeByID] alone, called with a [nil]
    watch set: it returns a node pointer and an error. *)
Record StateSnapshot : Type := mkSnapshot {
  NodeByID : string -> option structs.Node * option error
}.

End state.

(** ** nomad/util.go *)

Section Util.

Context {Version : Type} `{!VersionPkg Version} `{!NetPkg}.

(** serverParts is used to return the parts of a server role *)
Record serverParts : Type := mkServerParts {
  Name : string;
  ID : string;
  Region : string;
  Datacenter : string;
  Port : Z;
  Bootstrap : bool;
  Expect : Z;
  MajorVersion : Z;
  MinorVersion : Z;
  Build : Version;
  RaftVersion : Z;
  Addr : net.TCPAddr.t;
  RPCAddr : net.TCPAddr.t;
  Status : serf.MemberStatus
}.

(** [x <- e ;; k]: the early [return false, nil] of [isNomadServer] when a
    parse fails. *)
Notation "x <- e ;; k" :=
  (match e with Some x => k | None => (false, None) end)
  (at level 100, e at next level, right associativity, only parsing).

(** Returns if a member is a Nomad server. Returns a boolean, and a struct
    with the various important components *)
Definition isNomadServer (m : serf.Member) : bool * option serverParts :=
  let tags := serf.Tags m in
  if negb (String.eqb (index tags "role") "nomad") then (false, None) else
  let id := match tags !! "id" with Some v => v | None => "unknown" end in
  let region := index tags "region" in
  let datacenter := index tags "dc" in
  let bootstrap := bool_decide (is_Some (tags !! "bootstrap")) in
  expect <- match tags !! "expect" with
            | Some expectStr => strconv.Atoi expectStr
            | None => Some 0
            end ;;
  (* If the server is missing the rpc_addr tag, default to the serf
     advertise addr *)
  let rpcIP := match ParseIP (index tags "rpc_addr") with
               | None => serf.Addr m
               | Some ip => Some ip
               end in
  let portStr := index tags "port" in
  port <- strconv.Atoi portStr ;;
  buildVersion <- NewVersion (index tags "build") ;;
  (* The "vsn" tag was Version, which is now the MajorVersion number. *)
  let majorVersionStr := index tags "vsn" in
  majorVersion <- strconv.Atoi majorVersionStr ;;
  (* "mvn" is now the "Minor Version Number." *)
  let minorVersionStr := index tags "mvn" in
  let minorVersion := match strconv.Atoi minorVersionStr with
                      | Some v => v
                      | None => 0
                      end in
  raftVsn <- match tags !! "raft_vsn" with
             | Some raftVsnString => strconv.Atoi raftVsnString
             | None => Some 0
             end ;;
  let addr := net.TCPAddr.mk (serf.Addr m) port "" in
  let rpcAddr := net.TCPAddr.mk rpcIP port "" in
  let parts := {|
    Name := serf.Name m;
    ID := id;
    Region := region;
    Datacenter := datacenter;
    Port := port;
    Bootstrap := bootstrap;
    Expect := expect;
    Addr := addr;
    RPCAddr := rpcAddr;
    MajorVersion := majorVersion;
    MinorVersion := minorVersion;
    Build := buildVersion;
    RaftVersion := raftVsn;
    Status := serf.Status m
  |} in
  (true, Some parts).

(** The element loop of [slicesMatch], over two slices of one length. *)
Fixpoint elementsMatch (a b : list Z) : bool :=
  match a, b with
  | x :: a', y :: b' => if negb (x =? y) then false else elementsMatch a' b'
  | _, _ => true
  end.

Definition slicesMatch (a b : slice Z) : bool :=
  match a, b with
  | None, None => true
  | None, Some _ | Some _, None => false
  | Some la, Some lb =>
      if negb (length la =? length lb)%nat then false
      else elementsMatch la lb
  end.

(** ServersMeetMinimumVersion returns whether the given alive servers are
    at least on the given Nomad version

    [minVersion] is a pointer that is not [nil]. [parts] is read only after
    [valid]; the answer [(true, nil)], on which the source would fail, is
    never given by [isNomadServer] and falls under the last case. *)
Fixpoint ServersMeetMinimumVersion
    (members : list serf.Member) (minVersion : Version) : bool :=
  match members with
  | [] => true
  | member :: rest =>
      match isNomadServer member with
      | (true, Some parts) =>
          if bool_decide (Status parts = serf.StatusAlive) then
            (* Check if the versions match - version.LessThan will return
               true for 0.8.0-rc1 < 0.8.0, so we want to ignore the
               metadata *)
            let versionsMatch :=
              slicesMatch (Segments minVersion) (Segments (Build parts)) in
            if LessThan (Build parts) minVersion && negb versionsMatch
            then false
            else ServersMeetMinimumVersion rest minVersion
          else ServersMeetMinimumVersion rest minVersion
      | _ => ServersMeetMinimumVersion rest minVersion
      end
  end.

(** [version.Must(version.NewVersion("0.8.0-rc1"))], evaluated when the
    package is initialised: [Must] panics on a parse error, and then no
    function of the package ever runs ([None]). *)
Definition minNodeVersionSupportingRPC : option Version :=
  NewVersion "0.8.0-rc1".

Section Initialised.

(** The value of the package variable once initialisation succeeded. *)
Variable minVersion : Version.

(** nodeSupportsRpc returns a non-nil error if a Node does not support
    RPC. *)
Definition nodeSupportsRpc (node : structs.Node) : option error :=
  match structs.Attributes node !! "nomad.version" with
  | None => Some ErrUnknownNomadVersion
  | Some rawNodeVer =>
      match NewVersion rawNodeVer with
      | None => Some ErrUnknownNomadVersion
      | Some nodeVer =>
          if LessThan nodeVer minVersion
          then Some ErrNodeLacksRpc
          else None
      end
  end.

(** The body of [getNodeForRpc] over the capability check it calls. *)
Definition getNodeForRpcWith
    (supportsRpc : structs.Node -> option error)
    (snap : state.StateSnapshot) (nodeID : string)
    : option structs.Node * option error :=
  let '(node, err) := state.NodeByID snap nodeID in
  match err with
  | Some err => (None, Some err)
  | None =>
      match node with
      | None => (None, Some (Errorf "Unknown node %q" [nodeID]))
      | Some node =>
          match supportsRpc node with
          | Some err => (None, Some err)
          | None => (Some node, None)
          end
      end
  end.

(** getNodeForRpc returns a Node struct if the Node supports Node RPC.
    Otherwise an error is returned. *)
Definition getNodeForRpc
    (snap : state.StateSnapshot) (nodeID : string)
    : option structs.Node * option error :=
  getNodeForRpcWith nodeSupportsRpc snap nodeID.

End Initialised.

End Util.

(** ** nomad/util.go: the list helpers *)

(** The loop of [maxUint64] from index 1 on, [max] the largest value seen. *)
Fixpoint maxUint64Loop (max : Z) (rest : list Z) : Z :=
  match rest with
  | [] => max
  | cur :: rest' =>
      maxUint64Loop (if max <? cur then cur else max) rest'
  end.

(** maxUint64 returns the maximum value

    The variadic [inputs] are a list of [uint64], each a [Z] from 0 up to
    [2 ^ 64 - 1]. *)
Definition maxUint64 (inputs : list Z) : Z :=
  match inputs with
  | [] => 0
  | [x] => x
  | x :: rest => maxUint64Loop x rest
  end.

Section Shuffle.

(** The state of the generator behind [math/rand], and [rand.Intn(n)] on
    it: the number drawn and the state after the draw. *)
Variable Source : Type.
Variable Intn : Source -> Z -> Z * Source.

(** The loop of [shuffleStrings] over the slice [l] (the [list] of the
    source) with [n] more passes to make, at index [i]. Indexing [l[j]] out
    of range panics ([None]). *)
Fixpoint shuffleStringsLoop (n i : nat) (src : Source) (l : list string)
    : option (list string * Source) :=
  match n with
  | O => Some (l, src)
  | S n' =>
      let '(j, src) := Intn src (Z.of_nat i + 1) in
      if (j <? 0) || (Z.of_nat (length l) <=? j) then None else
      match l !! i, l !! Z.to_nat j with
      | Some atI, Some atJ =>
          (* list[i], list[j] = list[j], list[i] *)
          shuffleStringsLoop n' (S i) src
            (<[Z.to_nat j := atI]> (<[i := atJ]> l))
      | _, _ => None
      end
  end.

(** shuffleStrings randomly shuffles the list of strings

    The slice is changed in place: the result is what it holds afterwards,
    with the state of the generator. *)
Definition shuffleStrings (src : Source) (l : list string)
    : option (list string * Source) :=
  shuffleStringsLoop (length l) 0 src l.

End Shuffle.

(** ** Reference implementation of go-version

    [regexp] is a backtracking matcher with Go's preference order (the first
    alternative, the greedy or lazy choice of each repetition) and numbered
    capture groups, enough for the expression go-version compiles. *)

Module regexp.

Inductive re : Type :=
  | Byte (p : ascii -> bool)
  | Cat (r1 r2 : re)
  | Alt (r1 r2 : re)
  | Star (greedy : bool) (r : re)
  | Quest (greedy : bool) (r : re)
  | Group (n : nat) (r : re).

Definition Plus (r : re) : re := Cat r (Star true r).

Definition captures : Type := gmap nat string.

(** What was read between the input [s] and the rest [s']. *)
Definition consumed (s s' : string) : string :=
  substring 0 (String.length s - String.length s') s.

Fixpoint run (r : re) (s : string) (caps : captures)
    (k : string -> captures -> option captures) : option captures :=
  match r with
  | Byte p =>
      match s with
      | String c s' => if p c then k s' caps else None
      | EmptyString => None
      end
  | Cat r1 r2 => run r1 s caps (fun s' caps' => run r2 s' caps' k)
  | Alt r1 r2 =>
      match run r1 s caps k with
      | Some c => Some c
      | None => run r2 s caps k
      end
  | Quest true r' =>
      match run r' s caps k with
      | Some c => Some c
      | None => k s caps
      end
  | Quest false r' =>
      match k s caps with
      | Some c => Some c
      | None => run r' s caps k
      end
  | Star greedy r' =>
      (fix loop (fuel : nat) (s : string) (caps : captures)
         : option captures :=
         match fuel with
         | O => k s caps
         | S fuel' =>
             let again (_ : unit) :=
               run r' s caps (fun s' caps' =>
                 if (String.length s' <? String.length s)%nat
                 then loop fuel' s' caps'
                 else None) in
             if greedy then
               match again tt with
               | Some c => Some c
               | None => k s caps
               end
             else
               match k s caps with
               | Some c => Some c
               | None => again tt
               end
         end) (String.length s) s caps
  | Group n r' =>
      run r' s caps (fun s' caps' => k s' (<[n := consumed s s']> caps'))
  end.

(** [FindStringSubmatch] for an expression anchored at both ends: the
    text of each group ([""] for a group that took no part), or [None]
    when the string does not match. *)
Definition FindStringSubmatch (r : re) (s : string)
    : option (nat -> string) :=
  match run r s (<[0%nat := s]> ∅)
          (fun s' caps => if String.eqb s' "" then Some caps else None) with
  | Some caps => Some (fun n => default "" (caps !! n))
  | None => None
  end.

End regexp.

Module strings.

(** [strings.Split(s, sep)] for a separator of one byte. *)
Fixpoint splitGo (sep : ascii) (cur : string) (s : string) : list string :=
  match s with
  | EmptyString => [cur]
  | String c r =>
      if Ascii.eqb c sep then cur :: splitGo sep "" r
      else splitGo sep (cur ++ String c "") r
  end.

Definition Split (s : string) (sep : ascii) : list string :=
  splitGo sep "" s.

Fixpoint Join (l : list string) (sep : string) : string :=
  match l with
  | [] => ""
  | [x] => x
  | x :: r => x ++ sep ++ Join r sep
  end.

End strings.

Module goversion.

Import regexp.

Definition inRange (lo hi c : ascii) : bool :=
  (nat_of_ascii lo <=? nat_of_ascii c)%nat
  && (nat_of_ascii c <=? nat_of_ascii hi)%nat.

Definition chr (c : ascii) : re := Byte (Ascii.eqb c).
(** A decimal digit. *)
Definition digit : re := Byte (inRange "0" "9").
(** [[A-Za-z\-~]] *)
Definition letter : re :=
  Byte (fun c => inRange "A" "Z" c || inRange "a" "z" c
                 || Ascii.eqb c "-" || Ascii.eqb c "~").
(** [[0-9A-Za-z\-~]] *)
Definition ident : re :=
  Byte (fun c => inRange "0" "9" c || inRange "A" "Z" c || inRange "a" "z" c
                 || Ascii.eqb c "-" || Ascii.eqb c "~").

(** The raw regular expression string used for testing the validity of a
    version. *)
Definition VersionRegexpRaw : string :=
  "v?([0-9]+(\.[0-9]+)*?)" ++
  "(-([0-9]+[0-9A-Za-z\-~]*(\.[0-9A-Za-z\-~]+)*)|(-?([A-Za-z\-~]+[0-9A-Za-z\-~]*(\.[0-9A-Za-z\-~]+)*)))?" ++
  "(\+([0-9A-Za-z\-~]+(\.[0-9A-Za-z\-~]+)*))?" ++
  "?".

(** [VersionRegexpRaw] compiled between the anchors of both ends, its
    groups numbered by their opening parenthesis. *)
Definition versionRegexp : re :=
  Cat (Quest true (chr "v"))
 (Cat (Group 1 (Cat (Plus digit)
                    (Star false (Group 2 (Cat (chr ".") (Plus digit))))))
 (Cat (Quest true (Group 3
        (Alt (Cat (chr "-")
                  (Group 4 (Cat (Plus digit)
                           (Cat (Star true ident)
                                (Star true (Group 5 (Cat (chr ".")
                                                         (Plus ident))))))))
             (Group 6 (Cat (Quest true (chr "-"))
                      (Group 7 (Cat (Plus letter)
                               (Cat (Star true ident)
                                    (Star true (Group 8 (Cat (chr ".")
                                                        (Plus ident))))))))))))
      (Quest false (Group 9
        (Cat (chr "+")
             (Group 10 (Cat (Plus ident)
                            (Star true (Group 11 (Cat (chr ".")
                                                      (Plus ident))))))))))).

(** Version represents a single version. *)
Record Version : Type := mkVersion {
  metadata : string;
  pre : string;
  segments : list Z;
  si : Z
}.

(** The loop of [NewVersion] over the dotted numbers. *)
Fixpoint parseSegments (segmentsStr : list string) : option (list Z) :=
  match segmentsStr with
  | [] => Some []
  | str :: rest =>
      match strconv.ParseInt str 64 with
      | (_, Some _) => None
      | (val, None) =>
          match parseSegments rest with
          | Some l => Some (val :: l)
          | None => None
          end
      end
  end.

(** Fewer than three segments are padded with 0s. *)
Definition pad (segs : list Z) : list Z :=
  segs ++ repeat 0 (3 - length segs)%nat.

(** NewVersion parses the given version and returns a new Version. *)
Definition NewVersion (v : string) : option Version :=
  match FindStringSubmatch versionRegexp v with
  | None => None
  | Some matches =>
      let segmentsStr := strings.Split (matches 1%nat) "." in
      match parseSegments segmentsStr with
      | None => None
      | Some segs =>
          let pre := matches 7%nat in
          let pre := if String.eqb pre "" then matches 4%nat else pre in
          Some {| metadata := matches 10%nat;
                  pre := pre;
                  segments := pad segs;
                  si := Z.of_nat (length segmentsStr) |}
      end
  end.

(** [v.String()] *)
Definition String_ (v : Version) : string :=
  let buf := strings.Join (map (fun s : Z => pretty s) (segments v)) "." in
  let buf := if negb (String.eqb (pre v) "") then buf ++ "-" ++ pre v
             else buf in
  if negb (String.eqb (metadata v) "") then buf ++ "+" ++ metadata v
  else buf.

(** [v.Segments()]: a fresh slice, never [nil]. *)
Definition Segments (v : Version) : slice Z := Some (segments v).

Definition allZero (segs : list Z) : bool := forallb (Z.eqb 0) segs.

Definition comparePart (preSelf preOther : string) : Z :=
  if String.eqb preSelf preOther then 0 else
  let '(selfInt, selfErr) := strconv.ParseInt preSelf 64 in
  let selfNumeric := bool_decide (selfErr = None) in
  let '(otherInt, otherErr) := strconv.ParseInt preOther 64 in
  let otherNumeric := bool_decide (otherErr = None) in
  (* if a part is empty, we use the other to decide *)
  if String.eqb preSelf "" then (if otherNumeric then -1 else 1)
  else if String.eqb preOther "" then (if selfNumeric then 1 else -1)
  else if selfNumeric && negb otherNumeric then -1
  else if negb selfNumeric && otherNumeric then 1
  else if negb selfNumeric && negb otherNumeric
          && String.ltb preOther preSelf then 1
  else if otherInt <? selfInt then 1
  else -1.

(** The loop of [comparePrereleases]: [n] more parts to look at on the
    longer side, a side that ran out giving the empty part. *)
Fixpoint compareParts (n : nat) (selfParts otherParts : list string) : Z :=
  match n with
  | O => 0
  | S n' =>
      let partSelfPre := hd "" selfParts in
      let partOtherPre := hd "" otherParts in
      let compare := comparePart partSelfPre partOtherPre in
      (* if parts are equals, continue the loop *)
      if negb (compare =? 0) then compare
      else compareParts n' (tl selfParts) (tl otherParts)
  end.

Definition comparePrereleases (v other : string) : Z :=
  (* the same pre release! *)
  if String.eqb v other then 0 else
  let selfPreReleaseMeta := strings.Split v "." in
  let otherPreReleaseMeta := strings.Split other "." in
  let selfPreReleaseLen := length selfPreReleaseMeta in
  let otherPreReleaseLen := length otherPreReleaseMeta in
  let biggestLen := if (otherPreReleaseLen <? selfPreReleaseLen)%nat
                    then selfPreReleaseLen else otherPreReleaseLen in
  compareParts biggestLen selfPreReleaseMeta otherPreReleaseMeta.

(** The segment loop of [Compare]: a side that runs out first is smaller
    unless what is left of the other side is all zeros. *)
Fixpoint compareSegments (segmentsSelf segmentsOther : list Z) : Z :=
  match segmentsSelf, segmentsOther with
  | [], [] => 0
  | [], _ => if negb (allZero segmentsOther) then -1 else 0
  | _, [] => if negb (allZero segmentsSelf) then 1 else 0
  | lhs :: self', rhs :: other' =>
      if lhs =? rhs then compareSegments self' other'
      else if lhs <? rhs then -1
      else 1
  end.

(** Compare compares this version to another version. This returns -1, 0,
    or 1 if this version is smaller, equal, or larger than the other
    version, respectively. *)
Definition Compare (v other : Version) : Z :=
  (* A quick, efficient equality check *)
  if String.eqb (String_ v) (String_ other) then 0 else
  let segmentsSelf := segments v in
  let segmentsOther := segments other in
  (* If the segments are the same, we must compare on prerelease info *)
  if bool_decide (segmentsSelf = segmentsOther) then
    let preSelf := pre v in
    let preOther := pre other in
    if String.eqb preSelf "" && String.eqb preOther "" then 0
    else if String.eqb preSelf "" then 1
    else if String.eqb preOther "" then -1
    else comparePrereleases preSelf preOther
  else compareSegments segmentsSelf segmentsOther.

(** LessThan tests if this version is less than another version. *)
Definition LessThan (v o : Version) : bool := Compare v o <? 0.

End goversion.

#[global] Instance goversion_pkg : VersionPkg goversion.Version := {|
  NewVersion := goversion.NewVersion;
  LessThan := goversion.LessThan;
  Segments := goversion.Segments
|}.

(** ** Reference implementation of net.ParseIP *)

Module netref.

Local Open Scope list_scope.

Definition big : Z := 0xFFFFFF.

Fixpoint skip (c : nat) (s : string) : string :=
  match c, s with
  | S c', String _ r => skip c' r
  | _, _ => s
  end.

Definition byteAt (s : string) (i : nat) : option ascii := String.get i s.

(** The loop of [dtoi]: the number read so far, the bytes consumed. *)
Fixpoint dtoiLoop (n : Z) (i : nat) (s : string) : Z * nat * bool :=
  match s with
  | String ch r =>
      if strconv.isDigit ch then
        let n := n * 10 + strconv.digitVal ch in
        if big <=? n then (big, i, false) else dtoiLoop n (S i) r
      else (n, i, true)
  | EmptyString => (n, i, true)
  end.

(** Decimal to integer. Returns number, characters consumed, success. *)
Definition dtoi (s : string) : Z * nat * bool :=
  match dtoiLoop 0 0 s with
  | (n, i, false) => (n, i, false)
  | (n, O, true) => (0, O, false)
  | (n, i, true) => (n, i, true)
  end.

Definition hexVal (ch : ascii) : option Z :=
  let c := Z.of_nat (nat_of_ascii ch) in
  if (48 <=? c) && (c <=? 57) then Some (c - 48)
  else if (97 <=? c) && (c <=? 102) then Some (c - 97 + 10)
  else if (65 <=? c) && (c <=? 70) then Some (c - 65 + 10)
  else None.

Fixpoint xtoiLoop (n : Z) (i : nat) (s : string) : Z * nat * bool :=
  match s with
  | String ch r =>
      match hexVal ch with
      | Some d =>
          let n := n * 16 + d in
          if big <=? n then (0, i, false) else xtoiLoop n (S i) r
      | None => (n, i, true)
      end
  | EmptyString => (n, i, true)
  end.

(** Hexadecimal to integer. Returns number, characters consumed,
    success. *)
Definition xtoi (s : string) : Z * nat * bool :=
  match xtoiLoop 0 0 s with
  | (n, i, false) => (n, i, false)
  | (n, O, true) => (0, O, false)
  | (n, i, true) => (n, i, true)
  end.

Definition v4InV6Prefix : list Z := [0; 0; 0; 0; 0; 0; 0; 0; 0; 0; 0xff; 0xff].

(** The loop of [parseIPv4]: [k] more fields to read, [p] the fields
    read. *)
Fixpoint parseIPv4Loop (k : nat) (p : list Z) (s : string)
    : option (list Z * string) :=
  match k with
  | O => Some (p, s)
  | S k' =>
      match s with
      | EmptyString => None (* Missing octets. *)
      | String c0 r =>
          let afterDot :=
            match p with
            | [] => Some s
            | _ => if negb (Ascii.eqb c0 ".") then None else Some r
            end in
          match afterDot with
          | None => None
          | Some s =>
              let '(n, c, ok) := dtoi s in
              if negb ok || (0xFF <? n) then None
              else parseIPv4Loop k' (p ++ [n]) (skip c s)
          end
      end
  end.

(** Parse IPv4 address (d.d.d.d). *)
Definition parseIPv4 (s : string) : net.IP :=
  match parseIPv4Loop 4 [] s with
  | Some (p, EmptyString) => Some (v4InV6Prefix ++ p)
  | _ => None
  end.

Definition IPv6len : nat := 16.
Definition IPv4len : nat := 4.

(** How one pass of the loop of [parseIPv6] ends. *)
Inductive step : Type :=
  | Fail
  | Break (ip : list Z) (s : string) (ellipsis : option nat)
  | Continue (ip : list Z) (s : string) (ellipsis : option nat).

(** One pass: [ip] holds the bytes written so far, so that the index [i]
    of the source is its length. *)
Definition parseIPv6Step (ip : list Z) (s : string) (ellipsis : option nat)
    : step :=
  let i := length ip in
  (* Hex number. *)
  let '(n, c, ok) := xtoi s in
  if negb ok || (0xFFFF <? n) then Fail else
  (* If followed by dot, might be in trailing IPv4. *)
  if (c <? String.length s)%nat
     && bool_decide (byteAt s c = Some "."%char) then
    if bool_decide (ellipsis = None) && negb (i =? IPv6len - IPv4len)%nat
    then Fail (* Not the right place. *)
    else if (IPv6len <? i + IPv4len)%nat
    then Fail (* Not enough room. *)
    else
      match parseIPv4 s with
      | None => Fail
      | Some ip4 => Break (ip ++ skipn 12 ip4) "" ellipsis
      end
  else
  (* Save this 16-bit chunk. *)
  let ip := ip ++ [Z.shiftr n 8 mod 256; n mod 256] in
  let i := length ip in
  (* Stop at end of string. *)
  let s := skip c s in
  match s with
  | EmptyString => Break ip s ellipsis
  | String c0 s1 =>
      (* Otherwise must be followed by colon and more. *)
      if negb (Ascii.eqb c0 ":") || (String.length s =? 1)%nat then Fail
      else
        (* Look for ellipsis. *)
        match s1 with
        | String ":" s2 =>
            match ellipsis with
            | Some _ => Fail (* already have one *)
            | None =>
                match s2 with
                | EmptyString => Break ip s2 (Some i) (* can be at end *)
                | _ => Continue ip s2 (Some i)
                end
            end
        | _ => Continue ip s1 ellipsis
        end
  end.

(** The loop [for i < IPv6len]; every pass writes two bytes or more. *)
Fixpoint parseIPv6Loop (fuel : nat) (ip : list Z) (s : string)
    (ellipsis : option nat) : option (list Z * string * option nat) :=
  if negb (length ip <? IPv6len)%nat then Some (ip, s, ellipsis) else
  match fuel with
  | O => None
  | S fuel' =>
      match parseIPv6Step ip s ellipsis with
      | Fail => None
      | Break ip s ellipsis => Some (ip, s, ellipsis)
      | Continue ip s ellipsis => parseIPv6Loop fuel' ip s ellipsis
      end
  end.

(** parseIPv6 parses s as a literal IPv6 address described in RFC 4291
    and RFC 5952 (no zone is allowed by [ParseIP]). *)
Definition parseIPv6 (s : string) : net.IP :=
  (* Might have leading ellipsis *)
  let '(ellipsis, s, onlyEllipsis) :=
    match s with
    | String ":" (String ":" r) =>
        (Some 0%nat, r, bool_decide (r = ""))
    | _ => (None, s, false)
    end in
  (* Might be only ellipsis *)
  if onlyEllipsis then Some (repeat 0 IPv6len) else
  match parseIPv6Loop IPv6len [] s ellipsis with
  | None => None
  | Some (ip, s, ellipsis) =>
      (* Must have used entire string. *)
      if negb (String.length s =? 0)%nat then None else
      let i := length ip in
      (* If didn't parse enough, expand ellipsis. *)
      if (i <? IPv6len)%nat then
        match ellipsis with
        | None => None
        | Some e =>
            let n := (IPv6len - i)%nat in
            Some (firstn e ip ++ repeat 0 n ++ skipn e ip)
        end
      else
        match ellipsis with
        | Some _ => None (* Ellipsis must represent at least one 0 group. *)
        | None => Some ip
        end
  end.

(** The scan of [ParseIP] for the first dot or colon. *)
Fixpoint scan (whole rest : string) : net.IP :=
  match rest with
  | EmptyString => None
  | String c r =>
      if Ascii.eqb c "." then parseIPv4 whole
      else if Ascii.eqb c ":" then parseIPv6 whole
      else scan whole r
  end.

(** ParseIP parses s as an IP address, returning the result. If s is not
    a valid textual representation of an IP address, ParseIP returns
    nil. *)
Definition ParseIP (s : string) : net.IP := scan s s.

End netref.

#[global] Instance netref_pkg : NetPkg := {|
  ParseIP := netref.ParseIP;
  ParseIP_empty := eq_refl
|}.

(** ** Sample records

    Concrete members, nodes and snapshots, run through the reference
    implementations. *)

Module sample.

Definition tags (l : list (string * string)) : gmap string string :=
  list_to_map l.

(** A server as a Nomad 0.8 agent advertises itself. *)
Definition server (build : string) (status : serf.MemberStatus)
    : serf.Member :=
  serf.mkMember "nomad-server-1.global" (Some [10; 0; 0; 1]) 4648
    (tags [("role", "nomad"); ("region", "global"); ("dc", "dc1");
           ("id", "c4de9a8e"); ("port", "4647"); ("build", build);
           ("vsn", "1"); ("mvn", "1"); ("raft_vsn", "2");
           ("rpc_addr", "10.0.0.9")])
    status.

(** Only the mandatory tags; the port tag is zero. *)
Definition portZero : serf.Member :=
  serf.mkMember "nomad-server-2.global" (Some [10; 0; 0; 2]) 4648
    (tags [("role", "nomad"); ("port", "0"); ("build", "0.8.0");
           ("vsn", "1")])
    serf.StatusAlive.

(** Only the mandatory tags, all well formed. *)
Definition minimal : serf.Member :=
  serf.mkMember "nomad-server-3.global" (Some [10; 0; 0; 3]) 4648
    (tags [("role", "nomad"); ("port", "4647"); ("build", "0.8.0");
           ("vsn", "1")])
    serf.StatusAlive.

(** The mandatory tags well formed, no expect tag, and a raft_vsn tag that
    is not an integer. *)
Definition badRaft : serf.Member :=
  serf.mkMember "nomad-server-4.global" (Some [10; 0; 0; 4]) 4648
    (tags [("role", "nomad"); ("port", "4647"); ("build", "0.8.0");
           ("vsn", "1"); ("raft_vsn", "abc")])
    serf.StatusAlive.

(** A client agent: no role tag. *)
Definition client : serf.Member :=
  serf.mkMember "nomad-client-1" (Some [10; 0; 1; 1]) 4648
    (tags [("port", "4647"); ("build", "0.7.0"); ("vsn", "1")])
    serf.StatusAlive.

(** What [version.NewVersion] makes of the threshold literal. *)
Definition threshold : goversion.Version :=
  goversion.mkVersion "" "rc1" [0; 8; 0] 3.

(** What [version.NewVersion] makes of ["1.0.0"]. *)
Definition v100 : goversion.Version :=
  goversion.mkVersion "" "" [1; 0; 0] 3.

(** The descriptor of [server "0.8.0-rc1" StatusAlive]. *)
Definition descriptor : serverParts := {|
  Name := "nomad-server-1.global";
  ID := "c4de9a8e";
  Region := "global";
  Datacenter := "dc1";
  Port := 4647;
  Bootstrap := false;
  Expect := 0;
  MajorVersion := 1;
  MinorVersion := 1;
  Build := threshold;
  RaftVersion := 2;
  Addr := net.TCPAddr.mk (Some [10; 0; 0; 1]) 4647 "";
  RPCAddr := net.TCPAddr.mk
    (Some [0; 0; 0; 0; 0; 0; 0; 0; 0; 0; 255; 255; 10; 0; 0; 9]) 4647 "";
  Status := serf.StatusAlive
|}.

(** An ID of the right length that the snapshot does not know. *)
Definition unknownID : string := "00000000-0000-0000-0000-000000000000".

Definition lookupError : error :=
  errorString "node lookup failed: index error: UUID must be 36 characters".

Definition node (version : string) : structs.Node :=
  structs.mkNode "f7476465-4d6e-c0de-26d0-e383c49be941"
    {[ "nomad.version" := version ]}.

Definition nodeNoVersion : structs.Node :=
  structs.mkNode "f7476465-4d6e-c0de-26d0-e383c49be941" ∅.

(** A snapshot that knows one node, and whose lookup fails on an ID that is
    not 36 characters long, as the index of the node table does. *)
Definition snapshot : state.StateSnapshot :=
  state.mkSnapshot (fun nodeID =>
    if negb (String.length nodeID =? 36)%nat
    then (None, Some lookupError)
    else if String.eqb nodeID (structs.ID (node "0.8.4"))
    then (Some (node "0.8.4"), None)
    else (None, None)).

End sample.

(** ** Vocabulary of the properties *)

Section Vocabulary.

Context {Version : Type} `{!VersionPkg Version} `{!NetPkg}.

(** A tag that may be absent but must be an integer when present: [0] when
    absent, [None] when present and not an integer. *)
Definition optionalInt (tags : gmap string string) (k : string) : option Z :=
  match tags !! k with
  | Some str => strconv.Atoi str
  | None => Some 0
  end.

(** The IP of the RPC address: the parsed [rpc_addr] tag, or the member's
    own address when the tag is not an IP literal. *)
Definition rpcIPOf (m : serf.Member) : net.IP :=
  match ParseIP (index (serf.Tags m) "rpc_addr") with
  | None => serf.Addr m
  | Some ip => Some ip
  end.

(** Every field of the descriptor [p] holds what the record [m] decodes
    to: nothing is left at a zero value for want of a successful parse. *)
Definition populated (m : serf.Member) (p : serverParts) : Prop :=
  let tags := serf.Tags m in
  Name p = serf.Name m
  /\ ID p = default "unknown" (tags !! "id")
  /\ Region p = index tags "region"
  /\ Datacenter p = index tags "dc"
  /\ Bootstrap p = bool_decide (is_Some (tags !! "bootstrap"))
  /\ optionalInt tags "expect" = Some (Expect p)
  /\ strconv.Atoi (index tags "port") = Some (Port p)
  /\ NewVersion (index tags "build") = Some (Build p)
  /\ strconv.Atoi (index tags "vsn") = Some (MajorVersion p)
  /\ MinorVersion p = default 0 (strconv.Atoi (index tags "mvn"))
  /\ optionalInt tags "raft_vsn" = Some (RaftVersion p)
  /\ Addr p = net.TCPAddr.mk (serf.Addr m) (Port p) ""
  /\ RPCAddr p = net.TCPAddr.mk (rpcIPOf m) (Port p) ""
  /\ Status p = serf.Status m.

(** The role tag is the marker and the three mandatory tags parse. *)
Definition mandatoryWellFormed (m : serf.Member) : Prop :=
  let tags := serf.Tags m in
  index tags "role" = "nomad"
  /\ strconv.Atoi (index tags "port") <> None
  /\ NewVersion (index tags "build") <> None
  /\ strconv.Atoi (index tags "vsn") <> None.

(** A tag that is present and is not an integer. *)
Definition malformedInt (tags : gmap string string) (k : string) : Prop :=
  exists str, tags !! k = Some str /\ strconv.Atoi str = None.

(** A server complies with [minVersion] when its build is not strictly
    less, or when both have the same numeric segments. *)
Definition compliant (minVersion : Version) (p : serverParts) : Prop :=
  LessThan (Build p) minVersion = false
  \/ Segments minVersion = Segments (Build p).

(** The member [m] with its tags replaced. *)
Definition withTags (m : serf.Member) (tags : gmap string string)
    : serf.Member :=
  serf.mkMember (serf.Name m) (serf.Addr m) (serf.Port m) tags (serf.Status m).

End Vocabulary.

(** ** Vocabulary of the further properties *)

Section Verdict.

Context {Version : Type} `{!VersionPkg Version} `{!NetPkg}.

(** What one pass of the loop of [ServersMeetMinimumVersion] decides on the
    member [m]: [false] makes the function return [false], [true] goes on
    to the next member. *)
Definition passes (minVersion : Version) (m : serf.Member) : bool :=
  match isNomadServer m with
  | (true, Some parts) =>
      if bool_decide (Status parts = serf.StatusAlive) then
        negb (LessThan (Build parts) minVersion
              && negb (slicesMatch (Segments minVersion)
                                   (Segments (Build parts))))
      else true
  | _ => true
  end.

End Verdict.

(** The tags [isNomadServer] reads. *)
Definition recognisedTags : list string :=
  ["role"; "id"; "region"; "dc"; "bootstrap"; "expect"; "rpc_addr"; "port";
   "build"; "vsn"; "mvn"; "raft_vsn"].

(** A [uint64]. *)
Definition isUint64 (x : Z) : Prop := 0 <= x < 2 ^ 64.

Module sampleRand.

(** A linear congruential generator standing for the source of
    [math/rand]: the state is the last number made. *)
Definition next (src : Z) : Z := (src * 1103515245 + 12345) mod 2 ^ 31.

Definition Intn (src : Z) (n : Z) : Z * Z := (next src mod n, next src).

End sampleRand.

Module sampleMore.

(** [sample.minimal] as another agent would gossip it: one more tag, which
    [isNomadServer] does not read, and another serf port. *)
Definition extraTags : gmap string string :=
  <["serf_protocol_version" := "4"]> (serf.Tags sample.minimal).

(** The descriptor of [sample.minimal]. *)
Definition minimalDescriptor : serverParts := {|
  Name := "nomad-server-3.global";
  ID := "unknown";
  Region := "";
  Datacenter := "";
  Port := 4647;
  Bootstrap := false;
  Expect := 0;
  MajorVersion := 1;
  MinorVersion := 0;
  Build := goversion.mkVersion "" "" [0; 8; 0] 3;
  RaftVersion := 0;
  Addr := net.TCPAddr.mk (Some [10; 0; 0; 3]) 4647 "";
  RPCAddr := net.TCPAddr.mk (Some [10; 0; 0; 3]) 4647 "";
  Status := serf.StatusAlive
|}.

(** [sample.minimal] with an mvn tag that is not an integer. *)
Definition badMinor : serf.Member :=
  withTags sample.minimal (<["mvn" := "one"]> (serf.Tags sample.minimal)).

(** [sample.minimal] with an rpc_addr tag that is a host name, not an IP
    literal. *)
Definition badRpcAddr : serf.Member :=
  withTags sample.minimal
    (<["rpc_addr" := "nomad.example.com"]> (serf.Tags sample.minimal)).

(** A snapshot whose only node is too old for RPC. *)
Definition oldSnapshot : state.StateSnapshot :=
  state.mkSnapshot (fun nodeID =>
    if String.eqb nodeID (structs.ID (sample.node "0.7.1"))
    then (Some (sample.node "0.7.1"), None)
    else (None, None)).

End sampleMore.

(** ** Properties *)

Section Properties.

Context {Version : Type} `{!VersionPkg Version} `{!NetPkg}.

Lemma index_absent (tags : gmap string string) (k : string) :
  tags !! k = None -> index tags k = "".
Proof. intros E. unfold index. now rewrite E. Qed.

Lemma Atoi_empty : strconv.Atoi "" = None.
Proof. reflexivity. Qed.

(** [isNomadServer] as one chain of decodings. *)
Lemma isNomadServer_unfold (m : serf.Member) :
  isNomadServer m =
  let tags := serf.Tags m in
  if negb (String.eqb (index tags "role") "nomad") then (false, None) else
  match optionalInt tags "expect" with
  | None => (false, None)
  | Some expect =>
  match strconv.Atoi (index tags "port") with
  | None => (false, None)
  | Some port =>
  match NewVersion (index tags "build") with
  | None => (false, None)
  | Some buildVersion =>
  match strconv.Atoi (index tags "vsn") with
  | None => (false, None)
  | Some majorVersion =>
  match optionalInt tags "raft_vsn" with
  | None => (false, None)
  | Some raftVsn =>
      (true, Some {|
        Name := serf.Name m;
        ID := default "unknown" (tags !! "id");
        Region := index tags "region";
        Datacenter := index tags "dc";
        Port := port;
        Bootstrap := bool_decide (is_Some (tags !! "bootstrap"));
        Expect := expect;
        MajorVersion := majorVersion;
        MinorVersion := default 0 (strconv.Atoi (index tags "mvn"));
        Build := buildVersion;
        RaftVersion := raftVsn;
        Addr := net.TCPAddr.mk (serf.Addr m) port "";
        RPCAddr := net.TCPAddr.mk (rpcIPOf m) port "";
        Status := serf.Status m |})
  end end end end end.
Proof. reflexivity. Qed.

(** The classifier answers [(false, nil)] or [(true, descriptor)]. *)
Lemma isNomadServer_total (m : serf.Member) :
  isNomadServer m = (false, None)
  \/ exists p, isNomadServer m = (true, Some p).
Proof.
  rewrite isNomadServer_unfold. cbv zeta.
  destruct (negb _); [now left|].
  destruct (optionalInt _ "expect"); [|now left].
  destruct (strconv.Atoi (index _ "port")); [|now left].
  destruct (NewVersion _); [|now left].
  destruct (strconv.Atoi (index _ "vsn")); [|now left].
  destruct (optionalInt _ "raft_vsn"); [|now left].
  right. eexists. reflexivity.
Qed.

(** A descriptor comes out exactly when the role tag is the marker and
    every field decoded. *)
Lemma isNomadServer_spec (m : serf.Member) (p : serverParts) :
  isNomadServer m = (true, Some p)
  <-> index (serf.Tags m) "role" = "nomad" /\ populated m p.
Proof.
  rewrite isNomadServer_unfold. unfold populated. cbv zeta. split.
  - destruct (String.eqb_spec (index (serf.Tags m) "role") "nomad") as [Hr|Hr];
      simpl; [|discriminate].
    destruct (optionalInt _ "expect") as [e|]; [|discriminate].
    destruct (strconv.Atoi (index _ "port")) as [po|]; [|discriminate].
    destruct (NewVersion _) as [b|]; [|discriminate].
    destruct (strconv.Atoi (index _ "vsn")) as [ma|]; [|discriminate].
    destruct (optionalInt _ "raft_vsn") as [r|]; [|discriminate].
    intros E. injection E as <-. simpl.
    repeat split; first [assumption | reflexivity].
  - intros (Hr & Hn & Hi & Hre & Hd & Hb & He & Hp & Hbu & Hma & Hmi & Hra
              & Ha & Hrp & Hs).
    rewrite Hr. simpl. rewrite He, Hp, Hbu, Hma, Hra.
    destruct p; simpl in *; subst. reflexivity.
Qed.

Lemma isNomadServer_Status (m : serf.Member) (p : serverParts) :
  isNomadServer m = (true, Some p) -> Status p = serf.Status m.
Proof. intros E. apply isNomadServer_spec in E. apply E. Qed.

Lemma elementsMatch_eq (a b : list Z) :
  length a = length b -> elementsMatch a b = true <-> a = b.
Proof.
  revert b. induction a as [|x a IH]; intros [|y b] Hlen;
    try discriminate; simpl.
  - tauto.
  - injection Hlen as Hlen. destruct (Z.eqb_spec x y) as [->|Hne]; simpl.
    + rewrite (IH b Hlen). split; [now intros ->|now intros [= ->]].
    + split; [discriminate|intros [= ? ?]; contradiction].
Qed.

(** [slicesMatch] decides equality of two slices, [nil] being equal to
    [nil] alone. *)
Lemma slicesMatch_eq (a b : slice Z) : slicesMatch a b = true <-> a = b.
Proof.
  destruct a as [la|], b as [lb|]; simpl; try (split; [discriminate|easy]);
    try tauto.
  destruct (Nat.eqb_spec (length la) (length lb)) as [Hlen|Hlen]; simpl.
  - rewrite (elementsMatch_eq la lb Hlen). split; [now intros ->|now intros [= ->]].
  - split; [discriminate|intros [= ->]; contradiction].
Qed.

(** What one member decides: [false] if it is an alive server that does not
    comply, otherwise the rest of the list decides. *)
Lemma compliant_decide (minVersion : Version) (p : serverParts) :
  LessThan (Build p) minVersion
  && negb (slicesMatch (Segments minVersion) (Segments (Build p))) = false
  <-> compliant minVersion p.
Proof.
  unfold compliant. rewrite andb_false_iff, negb_false_iff, slicesMatch_eq.
  tauto.
Qed.

(** C1: [ServersMeetMinimumVersion members minVersion] is true if and only
    if every member that [isNomadServer] classifies as a server and whose
    status is alive complies with [minVersion] (its build is not strictly
    less, or the numeric segments of both are equal); in particular it is
    true of the empty list and of every list in which no member is an alive
    server, and a member that is no server or is not alive never changes
    the result. *)
Theorem ServersMeetMinimumVersion_iff
    (members : list serf.Member) (minVersion : Version) :
  (ServersMeetMinimumVersion members minVersion = true
   <-> forall m p, In m members ->
         isNomadServer m = (true, Some p) ->
         serf.Status m = serf.StatusAlive ->
         compliant minVersion p)
  /\ ServersMeetMinimumVersion [] minVersion = true
  /\ ((forall m p, In m members -> isNomadServer m = (true, Some p) ->
                   serf.Status m <> serf.StatusAlive) ->
      ServersMeetMinimumVersion members minVersion = true)
  /\ (forall m rest,
        (forall p, isNomadServer m = (true, Some p) ->
                   serf.Status m <> serf.StatusAlive) ->
        ServersMeetMinimumVersion (m :: rest) minVersion
        = ServersMeetMinimumVersion rest minVersion).
Proof.
  assert (ServersMeetMinimumVersion members minVersion = true
          <-> forall m p, In m members ->
                isNomadServer m = (true, Some p) ->
                serf.Status m = serf.StatusAlive ->
                compliant minVersion p) as Hiff.
  { induction members as [|a rest IH]; simpl.
    - split; [intros _ m p []|reflexivity].
    - destruct (isNomadServer a) as [[|] [parts|]] eqn:E.
      + pose proof (isNomadServer_Status a parts E) as HS.
        case_bool_decide as Halive.
        * destruct (LessThan (Build parts) minVersion
                    && negb (slicesMatch (Segments minVersion)
                                         (Segments (Build parts))))
            eqn:Hc.
          -- split; [discriminate|]. intros Hall.
             assert (compliant minVersion parts) as Hcomp.
             { apply (Hall a parts); [now left|exact E|congruence]. }
             apply compliant_decide in Hcomp. congruence.
          -- rewrite IH. apply compliant_decide in Hc. split.
             ++ intros Hall m p [<-|Hin] Em Hm; [|eauto].
                rewrite E in Em. injection Em as <-. exact Hc.
             ++ intros Hall m p Hin. apply Hall. now right.
        * rewrite IH. split.
          -- intros Hall m p [<-|Hin] Em Hm; [|eauto].
             rewrite E in Em. injection Em as <-. congruence.
          -- intros Hall m p Hin. apply Hall. now right.
      + rewrite IH. split.
        * intros Hall m p [<-|Hin] Em Hm; [congruence|eauto].
        * intros Hall m p Hin. apply Hall. now right.
      + rewrite IH. split.
        * intros Hall m p [<-|Hin] Em Hm; [congruence|eauto].
        * intros Hall m p Hin. apply Hall. now right.
      + rewrite IH. split.
        * intros Hall m p [<-|Hin] Em Hm; [congruence|eauto].
        * intros Hall m p Hin. apply Hall. now right. }
  split; [exact Hiff|split; [reflexivity|split]].
  - intros Hnone. apply Hiff. intros m p Hin E Halive.
    exfalso. exact (Hnone m p Hin E Halive).
  - intros m rest Hno. simpl.
    destruct (isNomadServer m) as [[|] [parts|]] eqn:E; try reflexivity.
    pose proof (isNomadServer_Status m parts E) as HS.
    case_bool_decide as Halive; [|reflexivity].
    exfalso. apply (Hno parts eq_refl). congruence.
Qed.

(** A record is rejected when its role tag is not the marker or a
    mandatory tag does not parse. *)
Lemma isNomadServer_rejects (m : serf.Member) :
  index (serf.Tags m) "role" <> "nomad"
  \/ strconv.Atoi (index (serf.Tags m) "port") = None
  \/ NewVersion (index (serf.Tags m) "build") = None
  \/ strconv.Atoi (index (serf.Tags m) "vsn") = None ->
  isNomadServer m = (false, None).
Proof.
  intros Hbad. destruct (isNomadServer_total m) as [E|[p E]]; [exact E|].
  exfalso. apply isNomadServer_spec in E.
  destruct E as (Hr & _ & _ & _ & _ & _ & _ & Hp & Hb & Hv & _).
  destruct Hbad as [Hbad|[Hbad|[Hbad|Hbad]]]; congruence.
Qed.

(** C2: [isNomadServer] returns either [(false, nil)] or [(true, p)] with
    every field of [p] decoded from the record; it returns [(false, nil)]
    whenever the role tag is not the marker or the port, build or vsn tag
    does not parse, in particular when the role tag is missing; and it never
    returns [(true, nil)]. *)
Theorem isNomadServer_all_or_nothing (m : serf.Member) :
  let tags := serf.Tags m in
  (isNomadServer m = (false, None)
   \/ exists p, isNomadServer m = (true, Some p) /\ populated m p)
  /\ (index tags "role" <> "nomad"
      \/ strconv.Atoi (index tags "port") = None
      \/ NewVersion (index tags "build") = None
      \/ strconv.Atoi (index tags "vsn") = None ->
      isNomadServer m = (false, None))
  /\ (tags !! "role" = None -> isNomadServer m = (false, None))
  /\ isNomadServer m <> (true, None)
  /\ (forall p, isNomadServer m = (false, Some p) -> False).
Proof.
  cbv zeta.
  pose proof (isNomadServer_rejects m) as Hfail.
  repeat split.
  - destruct (isNomadServer_total m) as [E|[p E]]; [now left|right].
    exists p. split; [exact E|]. now apply isNomadServer_spec in E.
  - exact Hfail.
  - intros Habs. apply Hfail. left.
    rewrite (index_absent _ _ Habs). discriminate.
  - destruct (isNomadServer_total m) as [E|[p E]]; congruence.
  - intros p. destruct (isNomadServer_total m) as [E|[q E]]; congruence.
Qed.

(** C3: once the package is initialised with its threshold [minVersion],
    [nodeSupportsRpc] returns [ErrUnknownNomadVersion] when the attribute
    [nomad.version] is absent or does not parse, [ErrNodeLacksRpc] when the
    parsed version is strictly less than the threshold, and no error
    otherwise. *)
Theorem nodeSupportsRpc_spec (minVersion : Version) (node : structs.Node) :
  minNodeVersionSupportingRPC = Some minVersion ->
  let attr := structs.Attributes node !! "nomad.version" in
  (attr = None -> nodeSupportsRpc minVersion node = Some ErrUnknownNomadVersion)
  /\ (forall raw, attr = Some raw -> NewVersion raw = None ->
        nodeSupportsRpc minVersion node = Some ErrUnknownNomadVersion)
  /\ (forall raw v, attr = Some raw -> NewVersion raw = Some v ->
        LessThan v minVersion = true ->
        nodeSupportsRpc minVersion node = Some ErrNodeLacksRpc)
  /\ (forall raw v, attr = Some raw -> NewVersion raw = Some v ->
        LessThan v minVersion = false ->
        nodeSupportsRpc minVersion node = None).
Proof.
  intros _. cbv zeta. unfold nodeSupportsRpc. repeat split.
  - now intros ->.
  - now intros raw -> ->.
  - now intros raw v -> -> ->.
  - now intros raw v -> -> ->.
Qed.

(** C4: when the lookup finds no node [getNodeForRpc] returns the error
    [Unknown node] made from the ID, and when it finds a node it applies
    [nodeSupportsRpc] to it: the error of the check when it fails, the node
    and no error when it succeeds. *)
Theorem getNodeForRpc_spec
    (minVersion : Version) (snap : state.StateSnapshot) (nodeID : string) :
  minNodeVersionSupportingRPC = Some minVersion ->
  (state.NodeByID snap nodeID = (None, None) ->
   getNodeForRpc minVersion snap nodeID
   = (None, Some (Errorf "Unknown node %q" [nodeID])))
  /\ (forall node, state.NodeByID snap nodeID = (Some node, None) ->
      (forall err, nodeSupportsRpc minVersion node = Some err ->
                   getNodeForRpc minVersion snap nodeID = (None, Some err))
      /\ (nodeSupportsRpc minVersion node = None ->
          getNodeForRpc minVersion snap nodeID = (Some node, None))).
Proof.
  intros _. unfold getNodeForRpc, getNodeForRpcWith. split.
  - now intros ->.
  - intros node ->. split.
    + now intros err ->.
    + now intros ->.
Qed.

(** C9: when the lookup itself returns an error, [getNodeForRpc] returns no
    node and that very error, whatever node came with it and whatever the
    capability check would answer: the check has no part in the result. *)
Theorem getNodeForRpc_lookup_error
    (minVersion : Version) (snap : state.StateSnapshot) (nodeID : string)
    (node : option structs.Node) (err : error) :
  state.NodeByID snap nodeID = (node, Some err) ->
  getNodeForRpc minVersion snap nodeID = (None, Some err)
  /\ (forall supportsRpc,
        getNodeForRpcWith supportsRpc snap nodeID = (None, Some err)).
Proof.
  intros E. unfold getNodeForRpc, getNodeForRpcWith. now rewrite E.
Qed.

Lemma digitVal_nonneg (c : ascii) :
  strconv.isDigit c = true -> 0 <= strconv.digitVal c.
Proof. unfold strconv.isDigit, strconv.digitVal. lia. Qed.

Lemma parseUintLoop_nonneg (maxVal n : Z) (s : string) :
  0 <= maxVal -> 0 <= n -> 0 <= fst (strconv.parseUintLoop maxVal n s).
Proof.
  intros Hmax. revert n. induction s as [|c r IH]; intros n Hn; simpl.
  - exact Hn.
  - destruct (strconv.isDigit c) eqn:Hd; simpl; [|lia].
    destruct (_ <=? n); simpl; [exact Hmax|].
    destruct (_ || _); simpl; [exact Hmax|].
    apply IH. pose proof (digitVal_nonneg c Hd). lia.
Qed.

Lemma ParseUint_nonneg (s : string) : 0 <= fst (strconv.ParseUint s 0).
Proof.
  destruct s as [|c r]; [simpl; lia|].
  unfold strconv.ParseUint. apply parseUintLoop_nonneg; [|lia].
  vm_compute. discriminate.
Qed.

(** What [Atoi] accepts is within the range of [int]. *)
Lemma Atoi_range (s : string) (v : Z) :
  strconv.Atoi s = Some v -> - 2 ^ 63 <= v <= 2 ^ 63 - 1.
Proof.
  unfold strconv.Atoi, strconv.ParseInt. destruct s as [|c r]; [discriminate|].
  set (nb := if Ascii.eqb c "+" then (false, r)
             else if Ascii.eqb c "-" then (true, r)
             else (false, String c r)).
  destruct nb as [neg body].
  pose proof (ParseUint_nonneg body) as Hnn.
  destruct (strconv.ParseUint body 0) as [un e]. simpl in Hnn.
  change (2 ^ ((if 0 =? 0 then strconv.intSize else 0) - 1)) with (2 ^ 63).
  assert (forall neg : bool,
    (let (i64, o) :=
       if negb neg && (2 ^ 63 <=? un) then (2 ^ 63 - 1, Some strconv.ErrRange)
       else if neg && (2 ^ 63 <? un) then (- 2 ^ 63, Some strconv.ErrRange)
       else (if neg then - un else un, None)
     in match o with Some _ => None | None => Some i64 end) = Some v ->
    - 2 ^ 63 <= v <= 2 ^ 63 - 1) as Hcut.
  { intros [|]; simpl.
    - destruct (Z.ltb_spec (2 ^ 63) un); [discriminate|]. intros [= <-]. lia.
    - destruct (Z.leb_spec (2 ^ 63) un); [discriminate|]. intros [= <-]. lia. }
  destruct e as [[|]|]; [discriminate|apply Hcut|apply Hcut].
Qed.

(** C5, as the code has it: the port of an accepted record is the integer
    its port tag parses to, any value of the range of [int]; a record whose
    port tag is absent or is not an integer is rejected. *)
Theorem isNomadServer_port (m : serf.Member) :
  let tags := serf.Tags m in
  (forall p, isNomadServer m = (true, Some p) ->
     strconv.Atoi (index tags "port") = Some (Port p)
     /\ - 2 ^ 63 <= Port p <= 2 ^ 63 - 1)
  /\ (tags !! "port" = None \/ strconv.Atoi (index tags "port") = None ->
      isNomadServer m = (false, None)).
Proof.
  cbv zeta. split.
  - intros p E. apply isNomadServer_spec in E.
    destruct E as (_ & _ & _ & _ & _ & _ & _ & Hp & _).
    split; [exact Hp|]. exact (Atoi_range _ _ Hp).
  - intros Hbad. apply isNomadServer_rejects. right. left.
    destruct Hbad as [Habs|Hbad]; [|exact Hbad].
    rewrite (index_absent _ _ Habs). reflexivity.
Qed.

Lemma optionalInt_None (tags : gmap string string) (k : string) :
  optionalInt tags k = None <-> malformedInt tags k.
Proof.
  unfold optionalInt, malformedInt. destruct (tags !! k) as [str|].
  - split; [intros E; now exists str|intros (? & [= <-] & E); exact E].
  - split; [discriminate|intros (? & [=] & _)].
Qed.

Lemma optionalInt_absent (tags : gmap string string) (k : string) :
  tags !! k = None -> optionalInt tags k = Some 0.
Proof. intros E. unfold optionalInt. now rewrite E. Qed.

(** A record is accepted exactly when the role tag is the marker, the
    mandatory tags parse and neither strict optional tag is malformed. *)
Lemma isNomadServer_accepts (m : serf.Member) :
  (exists p, isNomadServer m = (true, Some p))
  <-> mandatoryWellFormed m
      /\ ~ malformedInt (serf.Tags m) "expect"
      /\ ~ malformedInt (serf.Tags m) "raft_vsn".
Proof.
  unfold mandatoryWellFormed. cbv zeta. rewrite <- !optionalInt_None. split.
  - intros [p E]. apply isNomadServer_spec in E.
    destruct E as (Hr & _ & _ & _ & _ & _ & He & Hp & Hb & Hv & _ & Hra & _).
    repeat split; congruence.
  - intros ((Hr & Hp & Hb & Hv) & He & Hra).
    rewrite isNomadServer_unfold. cbv zeta. rewrite Hr. simpl.
    destruct (optionalInt _ "expect"); [|contradiction].
    destruct (strconv.Atoi (index _ "port")); [|contradiction].
    destruct (NewVersion _); [|contradiction].
    destruct (strconv.Atoi (index _ "vsn")); [|contradiction].
    destruct (optionalInt _ "raft_vsn"); [|contradiction].
    eexists. reflexivity.
Qed.

(** C6: for a record whose role tag is the marker and whose mandatory tags
    parse, an absent expect (raft_vsn) tag gives an accepted record with
    that field 0, the other of the two tags not being one that rejects the
    record; and an expect or raft_vsn tag that is present and is not an
    integer gives [(false, nil)]. *)
Theorem isNomadServer_optional_strict (m : serf.Member) :
  mandatoryWellFormed m ->
  let tags := serf.Tags m in
  (tags !! "expect" = None -> ~ malformedInt tags "raft_vsn" ->
   exists p, isNomadServer m = (true, Some p) /\ Expect p = 0)
  /\ (tags !! "raft_vsn" = None -> ~ malformedInt tags "expect" ->
      exists p, isNomadServer m = (true, Some p) /\ RaftVersion p = 0)
  /\ (malformedInt tags "expect" \/ malformedInt tags "raft_vsn" ->
      isNomadServer m = (false, None)).
Proof.
  intros Hm. cbv zeta. repeat split.
  - intros Habs Hother.
    destruct (proj2 (isNomadServer_accepts m)) as [p E].
    { split; [exact Hm|split; [|exact Hother]].
      rewrite <- optionalInt_None, (optionalInt_absent _ _ Habs). discriminate. }
    exists p. split; [exact E|]. apply isNomadServer_spec in E.
    destruct E as (_ & _ & _ & _ & _ & _ & He & _).
    rewrite (optionalInt_absent _ _ Habs) in He. congruence.
  - intros Habs Hother.
    destruct (proj2 (isNomadServer_accepts m)) as [p E].
    { split; [exact Hm|split; [exact Hother|]].
      rewrite <- optionalInt_None, (optionalInt_absent _ _ Habs). discriminate. }
    exists p. split; [exact E|]. apply isNomadServer_spec in E.
    destruct E as (_ & _ & _ & _ & _ & _ & _ & _ & _ & _ & _ & Hra & _).
    rewrite (optionalInt_absent _ _ Habs) in Hra. congruence.
  - intros Hbad. destruct (isNomadServer_total m) as [E|[p E]]; [exact E|].
    exfalso. destruct (proj1 (isNomadServer_accepts m)) as (_ & He & Hra);
      [now exists p|]. tauto.
Qed.

(** Whether a record is accepted depends on the six tags that can reject
    it and on no other. *)
Lemma isNomadServer_fst_agree
    (m : serf.Member) (tags' : gmap string string) (k0 : string) :
  k0 <> "role" -> k0 <> "expect" -> k0 <> "port" -> k0 <> "build" ->
  k0 <> "vsn" -> k0 <> "raft_vsn" ->
  (forall k, k <> k0 -> tags' !! k = serf.Tags m !! k) ->
  fst (isNomadServer (withTags m tags')) = fst (isNomadServer m).
Proof.
  intros N1 N2 N3 N4 N5 N6 Hag.
  rewrite !isNomadServer_unfold. cbv zeta. unfold index, optionalInt. simpl.
  rewrite !Hag by congruence.
  destruct (negb _); [reflexivity|].
  destruct (match serf.Tags m !! "expect" with
            | Some str => strconv.Atoi str | None => Some 0 end);
    [|reflexivity].
  destruct (strconv.Atoi _); [|reflexivity].
  destruct (NewVersion _); [|reflexivity].
  destruct (strconv.Atoi _); [|reflexivity].
  destruct (match serf.Tags m !! "raft_vsn" with
            | Some str => strconv.Atoi str | None => Some 0 end);
    reflexivity.
Qed.

(** C7: a record whose mvn tag is absent or is not an integer is accepted
    whenever its other tags allow it (the role tag is the marker, the
    mandatory tags parse, expect and raft_vsn are not malformed), and its
    minor version is then 0; in every accepted record with such an mvn tag
    the minor version is 0; and whatever is done to the mvn tag alone, an
    accepted record stays accepted and a rejected one rejected. *)
Theorem isNomadServer_minor_lenient (m : serf.Member) :
  let tags := serf.Tags m in
  (forall p, isNomadServer m = (true, Some p) ->
     tags !! "mvn" = None \/ malformedInt tags "mvn" ->
     MinorVersion p = 0)
  /\ (mandatoryWellFormed m ->
      ~ malformedInt tags "expect" -> ~ malformedInt tags "raft_vsn" ->
      tags !! "mvn" = None \/ malformedInt tags "mvn" ->
      exists p, isNomadServer m = (true, Some p) /\ MinorVersion p = 0)
  /\ (forall tags', (forall k, k <> "mvn" -> tags' !! k = tags !! k) ->
        fst (isNomadServer (withTags m tags')) = fst (isNomadServer m))
  /\ (forall tags' p,
        (forall k, k <> "mvn" -> tags' !! k = tags !! k) ->
        isNomadServer m = (true, Some p) ->
        exists p', isNomadServer (withTags m tags') = (true, Some p')).
Proof.
  cbv zeta.
  assert (forall p, isNomadServer m = (true, Some p) ->
            serf.Tags m !! "mvn" = None \/ malformedInt (serf.Tags m) "mvn" ->
            MinorVersion p = 0) as Hzero.
  { intros p E Hbad. apply isNomadServer_spec in E.
    destruct E as (_ & _ & _ & _ & _ & _ & _ & _ & _ & _ & Hmi & _).
    rewrite Hmi. destruct Hbad as [Habs|(str & Hs & Hbad)].
    - now rewrite (index_absent _ _ Habs).
    - unfold index. rewrite Hs. simpl. now rewrite Hbad. }
  assert (forall tags',
            (forall k, k <> "mvn" -> tags' !! k = serf.Tags m !! k) ->
            fst (isNomadServer (withTags m tags')) = fst (isNomadServer m))
    as Hfst.
  { intros tags' Hag. now apply (isNomadServer_fst_agree m tags' "mvn"). }
  split; [exact Hzero|split; [|split; [exact Hfst|]]].
  - intros Hm He Hr Hbad.
    destruct (proj2 (isNomadServer_accepts m) (conj Hm (conj He Hr)))
      as [p E].
    exists p. split; [exact E|]. exact (Hzero p E Hbad).
  - intros tags' p Hag E. specialize (Hfst tags' Hag). rewrite E in Hfst.
    destruct (isNomadServer_total (withTags m tags')) as [E'|[p' E']].
    + rewrite E' in Hfst. discriminate.
    + now exists p'.
Qed.

(** C8: a record whose rpc_addr tag is absent or is not an IP literal is
    accepted whenever its other tags allow it (the role tag is the marker,
    the mandatory tags parse, expect and raft_vsn are not malformed), and
    its RPC address is then the member's own address with the parsed port
    (the same endpoint as [Addr]); the same holds of every accepted record
    with such an rpc_addr tag; and whatever is done to the rpc_addr tag
    alone, an accepted record stays accepted and a rejected one rejected. *)
Theorem isNomadServer_rpc_addr_fallback (m : serf.Member) :
  let tags := serf.Tags m in
  (forall p, isNomadServer m = (true, Some p) ->
     tags !! "rpc_addr" = None \/ ParseIP (index tags "rpc_addr") = None ->
     net.TCPAddr.IP (RPCAddr p) = serf.Addr m
     /\ RPCAddr p = net.TCPAddr.mk (serf.Addr m) (Port p) ""
     /\ RPCAddr p = Addr p)
  /\ (mandatoryWellFormed m ->
      ~ malformedInt tags "expect" -> ~ malformedInt tags "raft_vsn" ->
      tags !! "rpc_addr" = None \/ ParseIP (index tags "rpc_addr") = None ->
      exists p, isNomadServer m = (true, Some p)
                /\ net.TCPAddr.IP (RPCAddr p) = serf.Addr m
                /\ RPCAddr p = net.TCPAddr.mk (serf.Addr m) (Port p) ""
                /\ RPCAddr p = Addr p)
  /\ (forall tags', (forall k, k <> "rpc_addr" -> tags' !! k = tags !! k) ->
        fst (isNomadServer (withTags m tags')) = fst (isNomadServer m))
  /\ (forall tags' p,
        (forall k, k <> "rpc_addr" -> tags' !! k = tags !! k) ->
        isNomadServer m = (true, Some p) ->
        exists p', isNomadServer (withTags m tags') = (true, Some p')).
Proof.
  cbv zeta.
  assert (forall p, isNomadServer m = (true, Some p) ->
            serf.Tags m !! "rpc_addr" = None
            \/ ParseIP (index (serf.Tags m) "rpc_addr") = None ->
            net.TCPAddr.IP (RPCAddr p) = serf.Addr m
            /\ RPCAddr p = net.TCPAddr.mk (serf.Addr m) (Port p) ""
            /\ RPCAddr p = Addr p) as Hfall.
  { intros p E Hbad. apply isNomadServer_spec in E.
    destruct E as (_ & _ & _ & _ & _ & _ & _ & _ & _ & _ & _ & _ & Ha & Hrp & _).
    assert (rpcIPOf m = serf.Addr m) as Hip.
    { unfold rpcIPOf. destruct Hbad as [Habs|Hbad].
      - now rewrite (index_absent _ _ Habs), ParseIP_empty.
      - now rewrite Hbad. }
    rewrite Hrp, Ha, Hip. repeat split. }
  assert (forall tags',
            (forall k, k <> "rpc_addr" -> tags' !! k = serf.Tags m !! k) ->
            fst (isNomadServer (withTags m tags')) = fst (isNomadServer m))
    as Hfst.
  { intros tags' Hag. now apply (isNomadServer_fst_agree m tags' "rpc_addr"). }
  split; [exact Hfall|split; [|split; [exact Hfst|]]].
  - intros Hm He Hr Hbad.
    destruct (proj2 (isNomadServer_accepts m) (conj Hm (conj He Hr)))
      as [p E].
    exists p. split; [exact E|]. exact (Hfall p E Hbad).
  - intros tags' p Hag E. specialize (Hfst tags' Hag). rewrite E in Hfst.
    destruct (isNomadServer_total (withTags m tags')) as [E'|[p' E']].
    + rewrite E' in Hfst. discriminate.
    + now exists p'.
Qed.

(** C10: the port of the RPC address of an accepted record is the integer
    its port tag parses to, the same as the port of [Addr] and as [Port];
    changing the rpc_addr tag alone leaves it as it is. *)
Theorem isNomadServer_rpc_port (m : serf.Member) (p : serverParts) :
  isNomadServer m = (true, Some p) ->
  let tags := serf.Tags m in
  strconv.Atoi (index tags "port") = Some (net.TCPAddr.Port (RPCAddr p))
  /\ net.TCPAddr.Port (RPCAddr p) = net.TCPAddr.Port (Addr p)
  /\ net.TCPAddr.Port (RPCAddr p) = Port p
  /\ (forall tags' p',
        (forall k, k <> "rpc_addr" -> tags' !! k = tags !! k) ->
        isNomadServer (withTags m tags') = (true, Some p') ->
        net.TCPAddr.Port (RPCAddr p') = net.TCPAddr.Port (RPCAddr p)).
Proof.
  intros E. cbv zeta. apply isNomadServer_spec in E.
  destruct E as (_ & _ & _ & _ & _ & _ & _ & Hp & _ & _ & _ & _ & Ha & Hrp & _).
  rewrite Hrp, Ha. simpl. repeat split; [exact Hp|].
  intros tags' p' Hag E'. apply isNomadServer_spec in E'.
  destruct E' as (_ & _ & _ & _ & _ & _ & _ & Hp' & _ & _ & _ & _ & _ & Hrp' & _).
  rewrite Hrp'. simpl. simpl in Hp'. unfold index in Hp', Hp.
  rewrite Hag in Hp' by discriminate. congruence.
Qed.

End Properties.


(** ** The properties on the sample records *)

Example slicesMatch_samples :
  slicesMatch (Some [1; 0; 0]) (Some [1; 0; 0]) = true
  /\ slicesMatch (Some [1; 0; 0]) (Some [1; 0; 0; 0]) = false
  /\ slicesMatch None (Some []) = false
  /\ slicesMatch None None = true.
Proof. vm_compute. repeat split. Qed.

(** The examples of the specification: a release candidate of the minimum
    version passes, an older server fails, an older server that is not alive
    is not looked at, and neither is a client. *)
Example ServersMeetMinimumVersion_samples :
  NewVersion "1.0.0" = Some sample.v100
  /\ ServersMeetMinimumVersion
       [sample.server "1.0.0-rc1" serf.StatusAlive] sample.v100 = true
  /\ ServersMeetMinimumVersion
       [sample.server "1.2.0" serf.StatusAlive;
        sample.server "0.9.5" serf.StatusAlive] sample.v100 = false
  /\ ServersMeetMinimumVersion
       [sample.server "0.9.5" serf.StatusFailed;
        sample.server "0.9.5" serf.StatusLeft; sample.client] sample.v100
     = true.
Proof. vm_compute. repeat split. Qed.

Example isNomadServer_server :
  isNomadServer (sample.server "0.8.0-rc1" serf.StatusAlive)
  = (true, Some sample.descriptor).
Proof. vm_compute. reflexivity. Qed.

Example isNomadServer_client : isNomadServer sample.client = (false, None).
Proof. vm_compute. reflexivity. Qed.

(** A minor version that is not an integer is read as 0, and an rpc_addr
    that is not an IP literal gives way to the member's own address. *)
Example isNomadServer_lenient_tags :
  let m := withTags sample.minimal
             (<["mvn" := "one"]> (<["rpc_addr" := "nomad.example.com"]>
                (serf.Tags sample.minimal))) in
  exists p, isNomadServer m = (true, Some p)
            /\ MinorVersion p = 0
            /\ RPCAddr p = net.TCPAddr.mk (Some [10; 0; 0; 3]) 4647 "".
Proof. eexists. vm_compute. repeat split. Qed.

(** A port, expect or raft_vsn tag that is not an integer rejects the
    record, and so does a build tag that is not a version. *)
Example isNomadServer_strict_tags :
  let change k v := withTags sample.minimal
                      (<[k := v]> (serf.Tags sample.minimal)) in
  isNomadServer (change "port" "rpc") = (false, None)
  /\ isNomadServer (change "expect" "") = (false, None)
  /\ isNomadServer (change "raft_vsn" "2.0") = (false, None)
  /\ isNomadServer (change "build" "dev") = (false, None)
  /\ isNomadServer (change "vsn" "") = (false, None)
  /\ isNomadServer (change "role" "consul") = (false, None).
Proof. vm_compute. repeat split. Qed.

Example threshold_initialised :
  minNodeVersionSupportingRPC = Some sample.threshold.
Proof. vm_compute. reflexivity. Qed.

(** C3 on sample nodes: no version attribute, a version that does not
    parse, a version below the threshold, the threshold itself, a later
    release. *)
Lemma nodeSupportsRpc_spec_witness :
  nodeSupportsRpc sample.threshold sample.nodeNoVersion
  = Some ErrUnknownNomadVersion
  /\ nodeSupportsRpc sample.threshold (sample.node "not a version")
     = Some ErrUnknownNomadVersion
  /\ nodeSupportsRpc sample.threshold (sample.node "0.7.1")
     = Some ErrNodeLacksRpc
  /\ nodeSupportsRpc sample.threshold (sample.node "0.8.0-rc1") = None
  /\ nodeSupportsRpc sample.threshold (sample.node "0.8.4") = None.
Proof.
  assert (minNodeVersionSupportingRPC = Some sample.threshold) as Hinit
    by (vm_compute; reflexivity).
  refine (conj _ (conj _ (conj _ (conj _ _)))).
  - apply (proj1 (nodeSupportsRpc_spec _ sample.nodeNoVersion Hinit)).
    vm_compute. reflexivity.
  - destruct (nodeSupportsRpc_spec _ (sample.node "not a version") Hinit)
      as (_ & Hbad & _).
    apply (Hbad "not a version"); vm_compute; reflexivity.
  - destruct (nodeSupportsRpc_spec _ (sample.node "0.7.1") Hinit)
      as (_ & _ & Hold & _).
    apply (Hold "0.7.1" (goversion.mkVersion "" "" [0; 7; 1] 3));
      vm_compute; reflexivity.
  - destruct (nodeSupportsRpc_spec _ (sample.node "0.8.0-rc1") Hinit)
      as (_ & _ & _ & Hok).
    apply (Hok "0.8.0-rc1" sample.threshold); vm_compute; reflexivity.
  - destruct (nodeSupportsRpc_spec _ (sample.node "0.8.4") Hinit)
      as (_ & _ & _ & Hok).
    apply (Hok "0.8.4" (goversion.mkVersion "" "" [0; 8; 4] 3));
      vm_compute; reflexivity.
Defined.

(** C4 on the sample snapshot: an ID it does not know, and the ID of its
    node, which supports RPC. *)
Lemma getNodeForRpc_spec_witness :
  getNodeForRpc sample.threshold sample.snapshot sample.unknownID
  = (None, Some (Errorf "Unknown node %q" [sample.unknownID]))
  /\ getNodeForRpc sample.threshold sample.snapshot
       (structs.ID (sample.node "0.8.4"))
     = (Some (sample.node "0.8.4"), None).
Proof.
  assert (minNodeVersionSupportingRPC = Some sample.threshold) as Hinit
    by (vm_compute; reflexivity).
  split.
  - apply (proj1 (getNodeForRpc_spec _ sample.snapshot sample.unknownID Hinit)).
    vm_compute. reflexivity.
  - destruct (getNodeForRpc_spec _ sample.snapshot
                (structs.ID (sample.node "0.8.4")) Hinit) as (_ & Hfound).
    apply (Hfound (sample.node "0.8.4")); vm_compute; reflexivity.
Defined.

(** C9 on the sample snapshot: an ID on which the lookup itself fails. *)
Lemma getNodeForRpc_lookup_error_witness :
  getNodeForRpc sample.threshold sample.snapshot "web-1"
  = (None, Some sample.lookupError).
Proof.
  apply (proj1 (getNodeForRpc_lookup_error sample.threshold sample.snapshot
                  "web-1" None sample.lookupError eq_refl)).
Defined.

(** C5 as the specification states it fails: a record whose port tag is
    ["0"] is accepted, and its port is not positive. *)
Lemma isNomadServer_port_not_positive :
  ~ (forall (m : serf.Member) (p : serverParts),
       isNomadServer m = (true, Some p) -> 0 < Port p).
Proof.
  intros Hpos.
  destruct (isNomadServer sample.portZero) as [valid [p|]] eqn:E;
    try (vm_compute in E; discriminate).
  destruct valid; [|vm_compute in E; discriminate].
  pose proof (Hpos sample.portZero p E) as Hp.
  vm_compute in E. injection E as <-. simpl in Hp. lia.
Qed.

Lemma mandatoryWellFormed_minimal : mandatoryWellFormed sample.minimal.
Proof. repeat split; vm_compute; discriminate. Qed.

Lemma mandatoryWellFormed_badRaft : mandatoryWellFormed sample.badRaft.
Proof. repeat split; vm_compute; discriminate. Qed.

(** C6 on sample records: neither tag present, and a malformed raft_vsn. *)
Lemma isNomadServer_optional_strict_witness :
  (exists p, isNomadServer sample.minimal = (true, Some p) /\ Expect p = 0)
  /\ (exists p, isNomadServer sample.minimal = (true, Some p)
                /\ RaftVersion p = 0)
  /\ isNomadServer sample.badRaft = (false, None).
Proof.
  pose proof mandatoryWellFormed_minimal as Hmin.
  pose proof mandatoryWellFormed_badRaft as Hbad.
  assert (~ malformedInt (serf.Tags sample.minimal) "raft_vsn") as Hraft
    by (intros (str & Hs & _); vm_compute in Hs; discriminate).
  assert (~ malformedInt (serf.Tags sample.minimal) "expect") as Hexp
    by (intros (str & Hs & _); vm_compute in Hs; discriminate).
  refine (conj _ (conj _ _)).
  - apply (proj1 (isNomadServer_optional_strict sample.minimal Hmin));
      [vm_compute; reflexivity|exact Hraft].
  - apply (proj1 (proj2 (isNomadServer_optional_strict sample.minimal Hmin)));
      [vm_compute; reflexivity|exact Hexp].
  - apply (proj2 (proj2 (isNomadServer_optional_strict sample.badRaft Hbad))).
    right. exists "abc". split; vm_compute; reflexivity.
Defined.

Lemma mandatoryWellFormed_badMinor : mandatoryWellFormed sampleMore.badMinor.
Proof. repeat split; vm_compute; discriminate. Qed.

Lemma mandatoryWellFormed_badRpcAddr :
  mandatoryWellFormed sampleMore.badRpcAddr.
Proof. repeat split; vm_compute; discriminate. Qed.

(** C7 on sample records: no mvn tag, and an mvn tag that is not an
    integer. Both are accepted, with minor version 0. *)
Lemma isNomadServer_minor_lenient_witness :
  (exists p, isNomadServer sample.minimal = (true, Some p)
             /\ MinorVersion p = 0)
  /\ (exists p, isNomadServer sampleMore.badMinor = (true, Some p)
                /\ MinorVersion p = 0).
Proof.
  split.
  - apply (proj1 (proj2 (isNomadServer_minor_lenient sample.minimal))).
    + exact mandatoryWellFormed_minimal.
    + intros (str & Hs & _). vm_compute in Hs. discriminate.
    + intros (str & Hs & _). vm_compute in Hs. discriminate.
    + left. vm_compute. reflexivity.
  - apply (proj1 (proj2 (isNomadServer_minor_lenient sampleMore.badMinor))).
    + exact mandatoryWellFormed_badMinor.
    + intros (str & Hs & _). vm_compute in Hs. discriminate.
    + intros (str & Hs & _). vm_compute in Hs. discriminate.
    + right. exists "one". split; vm_compute; reflexivity.
Defined.

(** C8 on sample records: no rpc_addr tag, and an rpc_addr tag that is not
    an IP literal. Both are accepted, the RPC address being the member's
    own. *)
Lemma isNomadServer_rpc_addr_fallback_witness :
  (exists p, isNomadServer sample.minimal = (true, Some p)
             /\ net.TCPAddr.IP (RPCAddr p) = Some [10; 0; 0; 3]
             /\ RPCAddr p = Addr p)
  /\ (exists p, isNomadServer sampleMore.badRpcAddr = (true, Some p)
                /\ net.TCPAddr.IP (RPCAddr p) = Some [10; 0; 0; 3]
                /\ RPCAddr p = Addr p).
Proof.
  split.
  - destruct (proj1 (proj2 (isNomadServer_rpc_addr_fallback sample.minimal)))
      as (p & E & Hip & _ & Heq).
    + exact mandatoryWellFormed_minimal.
    + intros (str & Hs & _). vm_compute in Hs. discriminate.
    + intros (str & Hs & _). vm_compute in Hs. discriminate.
    + left. vm_compute. reflexivity.
    + exists p. split; [exact E|split; [exact Hip|exact Heq]].
  - destruct (proj1 (proj2 (isNomadServer_rpc_addr_fallback
                              sampleMore.badRpcAddr)))
      as (p & E & Hip & _ & Heq).
    + exact mandatoryWellFormed_badRpcAddr.
    + intros (str & Hs & _). vm_compute in Hs. discriminate.
    + intros (str & Hs & _). vm_compute in Hs. discriminate.
    + right. vm_compute. reflexivity.
    + exists p. split; [exact E|split; [exact Hip|exact Heq]].
Defined.

(** C10 on the sample server, whose rpc_addr tag gives another IP. *)
Lemma isNomadServer_rpc_port_witness :
  strconv.Atoi (index (serf.Tags (sample.server "0.8.0-rc1" serf.StatusAlive))
                  "port")
  = Some (net.TCPAddr.Port (RPCAddr sample.descriptor))
  /\ net.TCPAddr.Port (RPCAddr sample.descriptor)
     = net.TCPAddr.Port (Addr sample.descriptor).
Proof.
  assert (isNomadServer (sample.server "0.8.0-rc1" serf.StatusAlive)
          = (true, Some sample.descriptor)) as E
    by (vm_compute; reflexivity).
  destruct (isNomadServer_rpc_port _ _ E) as (Hp & Ha & _).
  split; [exact Hp|exact Ha].
Defined.

(** ** Further properties of util.go *)

Section MoreProperties.

Context {Version : Type} `{!VersionPkg Version} `{!NetPkg}.

(** ** maxUint64 *)

Lemma maxUint64Loop_max (max : Z) (rest : list Z) :
  maxUint64Loop max rest = fold_right Z.max max rest.
Proof.
  revert max. induction rest as [|cur rest IH]; intros max; simpl.
  - reflexivity.
  - rewrite IH. destruct (Z.ltb_spec max cur).
    + clear IH. induction rest as [|y rest IH]; simpl; lia.
    + clear IH. induction rest as [|y rest IH]; simpl; lia.
Qed.

Lemma maxUint64_cons (x : Z) (rest : list Z) :
  maxUint64 (x :: rest) = fold_right Z.max x rest.
Proof.
  destruct rest as [|y rest]; [reflexivity|].
  unfold maxUint64. apply maxUint64Loop_max.
Qed.

Lemma fold_max_ge (x : Z) (rest : list Z) :
  x <= fold_right Z.max x rest
  /\ (forall y, In y rest -> y <= fold_right Z.max x rest)
  /\ In (fold_right Z.max x rest) (x :: rest).
Proof.
  induction rest as [|y rest (IH1 & IH2 & IH3)]; simpl.
  - split; [lia|split; [intros y []|now left]].
  - split; [lia|split].
    + intros z [<-|Hz]; [lia|]. specialize (IH2 z Hz). lia.
    + destruct (Z.max_spec y (fold_right Z.max x rest)) as [[_ ->]|[_ ->]].
      * simpl in IH3. tauto.
      * tauto.
Qed.

(** X1: [maxUint64] of no input is 0; of one or more inputs it is one of
    them, and none of them is greater. *)
Theorem maxUint64_is_maximum (inputs : list Z) :
  (inputs = [] -> maxUint64 inputs = 0)
  /\ (inputs <> [] -> In (maxUint64 inputs) inputs)
  /\ (forall x, In x inputs -> x <= maxUint64 inputs).
Proof.
  destruct inputs as [|x rest].
  - split; [reflexivity|split; [congruence|intros x []]].
  - rewrite maxUint64_cons.
    destruct (fold_max_ge x rest) as (H1 & H2 & H3).
    split; [discriminate|split; [intros _; exact H3|]].
    intros y [<-|Hy]; auto.
Qed.

Lemma maxUint64_fold (inputs : list Z) :
  Forall isUint64 inputs -> maxUint64 inputs = fold_right Z.max 0 inputs.
Proof.
  intros Hu. destruct inputs as [|x rest]; [reflexivity|].
  rewrite maxUint64_cons. apply Forall_cons_iff in Hu as [Hx Hrest].
  unfold isUint64 in Hx. simpl.
  induction rest as [|y rest IH]; simpl.
  - lia.
  - apply Forall_cons_iff in Hrest as [Hy Hrest]. specialize (IH Hrest). lia.
Qed.

Lemma fold_max_nonneg (a : list Z) : 0 <= fold_right Z.max 0 a.
Proof. induction a as [|x a IH]; simpl; lia. Qed.

Lemma fold_max_app (a b : list Z) :
  fold_right Z.max 0 (a ++ b)
  = Z.max (fold_right Z.max 0 a) (fold_right Z.max 0 b).
Proof.
  pose proof (fold_max_nonneg b).
  induction a as [|x a IH]; simpl; [|rewrite IH]; lia.
Qed.

(** X2: over [uint64] values, the maximum of two lists put together is
    the maximum of their two maxima (an empty list counting as 0), and is a
    [uint64] again. *)
Theorem maxUint64_app (a b : list Z) :
  Forall isUint64 a -> Forall isUint64 b ->
  maxUint64 (a ++ b) = maxUint64 [maxUint64 a; maxUint64 b]
  /\ maxUint64 (a ++ b) = Z.max (maxUint64 a) (maxUint64 b)
  /\ isUint64 (maxUint64 (a ++ b)).
Proof.
  intros Ha Hb.
  assert (Forall isUint64 (a ++ b)%list) as Hab by (apply Forall_app; now split).
  assert (maxUint64 (a ++ b) = Z.max (maxUint64 a) (maxUint64 b)) as Hmax.
  { rewrite !maxUint64_fold by assumption. apply fold_max_app. }
  split; [|split; [exact Hmax|]].
  - rewrite Hmax. simpl. destruct (Z.ltb_spec (maxUint64 a) (maxUint64 b)); lia.
  - destruct (a ++ b)%list as [|x l] eqn:E.
    + simpl. unfold isUint64. lia.
    + destruct (maxUint64_is_maximum (x :: l)) as (_ & Hin & _).
      rewrite List.Forall_forall in Hab. apply Hab. apply Hin. discriminate.
Qed.

(** X3: [maxUint64] does not depend on the order of its inputs. *)
Theorem maxUint64_Permutation (a b : list Z) :
  Permutation a b -> maxUint64 a = maxUint64 b.
Proof.
  intros Hp.
  assert (forall l, l <> [] ->
            forall m, (In m l /\ forall x, In x l -> x <= m) -> m = maxUint64 l)
    as Huniq.
  { intros l Hl m [Hin Hub].
    destruct (maxUint64_is_maximum l) as (_ & Hin' & Hub').
    specialize (Hin' Hl). specialize (Hub _ Hin'). specialize (Hub' _ Hin). lia. }
  destruct a as [|x a].
  - apply Permutation_nil in Hp. now subst.
  - assert (b <> []) as Hb.
    { intros ->. apply Permutation_sym, Permutation_nil in Hp. discriminate. }
    apply Huniq; [exact Hb|].
    destruct (maxUint64_is_maximum (x :: a)) as (_ & Hin & Hub).
    split.
    + apply (Permutation_in _ Hp). apply Hin. discriminate.
    + intros y Hy. apply Hub. apply (Permutation_in _ (Permutation_sym Hp) Hy).
Qed.

(** ** slicesMatch *)

(** X5: [slicesMatch] is true exactly of equal slices, a [nil] slice being
    equal to [nil] only and not to an empty slice; so it is reflexive,
    symmetric and transitive. *)
Theorem slicesMatch_equivalence (a b c : slice Z) :
  (slicesMatch a b = true <-> a = b)
  /\ slicesMatch a a = true
  /\ slicesMatch a b = slicesMatch b a
  /\ (slicesMatch a b = true -> slicesMatch b c = true ->
      slicesMatch a c = true)
  /\ slicesMatch None (Some []) = false.
Proof.
  split; [apply slicesMatch_eq|split; [now apply slicesMatch_eq|split; [|split]]].
  - destruct (slicesMatch a b) eqn:E1, (slicesMatch b a) eqn:E2; try reflexivity.
    + apply slicesMatch_eq in E1 as ->.
      rewrite (proj2 (slicesMatch_eq b b) eq_refl) in E2. discriminate.
    + apply slicesMatch_eq in E2 as ->.
      rewrite (proj2 (slicesMatch_eq a a) eq_refl) in E1. discriminate.
  - rewrite !slicesMatch_eq. congruence.
  - reflexivity.
Qed.

(** ** ServersMeetMinimumVersion *)

Lemma ServersMeetMinimumVersion_forallb
    (members : list serf.Member) (minVersion : Version) :
  ServersMeetMinimumVersion members minVersion
  = forallb (passes minVersion) members.
Proof.
  induction members as [|m rest IH]; [reflexivity|].
  simpl. unfold passes at 1.
  destruct (isNomadServer m) as [[|] [parts|]]; try exact IH.
  destruct (bool_decide _); [|exact IH].
  destruct (LessThan _ _ && negb _); [reflexivity|exact IH].
Qed.

(** X6: a member list put together from two parts meets the minimum
    version exactly when both parts do. *)
Theorem ServersMeetMinimumVersion_app
    (a b : list serf.Member) (minVersion : Version) :
  ServersMeetMinimumVersion (a ++ b) minVersion
  = ServersMeetMinimumVersion a minVersion
    && ServersMeetMinimumVersion b minVersion.
Proof. rewrite !ServersMeetMinimumVersion_forallb. apply forallb_app. Qed.

(** X7: taking members away never turns the answer from true to false;
    the answer depends on which members are in the list only, not on their
    order or on how often each is listed. *)
Theorem ServersMeetMinimumVersion_incl
    (a b : list serf.Member) (minVersion : Version) :
  (incl a b -> ServersMeetMinimumVersion b minVersion = true ->
   ServersMeetMinimumVersion a minVersion = true)
  /\ (incl a b -> incl b a ->
      ServersMeetMinimumVersion a minVersion
      = ServersMeetMinimumVersion b minVersion)
  /\ (Permutation a b ->
      ServersMeetMinimumVersion a minVersion
      = ServersMeetMinimumVersion b minVersion).
Proof.
  rewrite !ServersMeetMinimumVersion_forallb.
  assert (forall a b : list serf.Member, incl a b ->
            forallb (passes minVersion) b = true ->
            forallb (passes minVersion) a = true) as Hmono.
  { intros a' b' Hincl. rewrite !forallb_forall. intros Hb m Hm.
    apply Hb, Hincl, Hm. }
  assert (forall a b : list serf.Member, incl a b -> incl b a ->
            forallb (passes minVersion) a = forallb (passes minVersion) b)
    as Heq.
  { intros a' b' Hab Hba.
    destruct (forallb _ a') eqn:Ea, (forallb _ b') eqn:Eb; try reflexivity.
    - rewrite (Hmono b' a' Hba Ea) in Eb. discriminate.
    - rewrite (Hmono a' b' Hab Eb) in Ea. discriminate. }
  split; [apply Hmono|split; [apply Heq|]].
  intros Hp. apply Heq; intros m Hm.
  - exact (Permutation_in _ Hp Hm).
  - exact (Permutation_in _ (Permutation_sym Hp) Hm).
Qed.

(** ** isNomadServer *)

(** X8: [isNomadServer] reads the twelve tags of [recognisedTags] and
    nothing else of the tag map, and not the member's serf port: a record
    that agrees on those tags gets the same answer. *)
Theorem isNomadServer_frame
    (m : serf.Member) (tags' : gmap string string) (port' : Z) :
  (forall k, In k recognisedTags -> tags' !! k = serf.Tags m !! k) ->
  isNomadServer
    (serf.mkMember (serf.Name m) (serf.Addr m) port' tags' (serf.Status m))
  = isNomadServer m.
Proof.
  intros Hag. rewrite !isNomadServer_unfold. cbv zeta.
  unfold index, optionalInt, rpcIPOf, index. simpl.
  rewrite !Hag by (simpl; tauto). reflexivity.
Qed.

(** X9: whether a record is accepted depends on its tags alone: with
    another name, address, serf port or status it is accepted just the same,
    the descriptor carrying the new name and status and the same decoded
    fields. A server that has failed or left is still classified as a
    server. *)
Theorem isNomadServer_ignores_liveness
    (m : serf.Member) (name : string) (addr : net.IP) (port : Z)
    (status : serf.MemberStatus) :
  let m' := serf.mkMember name addr port (serf.Tags m) status in
  fst (isNomadServer m') = fst (isNomadServer m)
  /\ (forall p, isNomadServer m = (true, Some p) ->
        exists p', isNomadServer m' = (true, Some p')
                   /\ Status p' = status /\ Name p' = name
                   /\ ID p' = ID p /\ Region p' = Region p
                   /\ Datacenter p' = Datacenter p /\ Port p' = Port p
                   /\ Bootstrap p' = Bootstrap p /\ Expect p' = Expect p
                   /\ MajorVersion p' = MajorVersion p
                   /\ MinorVersion p' = MinorVersion p
                   /\ Build p' = Build p /\ RaftVersion p' = RaftVersion p).
Proof.
  cbv zeta. rewrite !isNomadServer_unfold. cbv zeta. simpl.
  destruct (negb _); [split; [reflexivity|discriminate]|].
  destruct (optionalInt _ "expect"); [|split; [reflexivity|discriminate]].
  destruct (strconv.Atoi (index _ "port"));
    [|split; [reflexivity|discriminate]].
  destruct (NewVersion _); [|split; [reflexivity|discriminate]].
  destruct (strconv.Atoi (index _ "vsn"));
    [|split; [reflexivity|discriminate]].
  destruct (optionalInt _ "raft_vsn"); [|split; [reflexivity|discriminate]].
  split; [reflexivity|]. intros p [= <-]. eexists. split; [reflexivity|].
  simpl. repeat split.
Qed.

(** X10: in an accepted record, [Bootstrap] is true exactly when the
    bootstrap tag is present, whatever its value; [ID] is the id tag or
    ["unknown"] without one; region and datacenter are empty without their
    tags; name, status and the IP of [Addr] are the member's own. *)
Theorem isNomadServer_defaults (m : serf.Member) (p : serverParts) :
  isNomadServer m = (true, Some p) ->
  let tags := serf.Tags m in
  (Bootstrap p = true <-> exists v, tags !! "bootstrap" = Some v)
  /\ (tags !! "id" = None -> ID p = "unknown")
  /\ (forall v, tags !! "id" = Some v -> ID p = v)
  /\ (tags !! "region" = None -> Region p = "")
  /\ (tags !! "dc" = None -> Datacenter p = "")
  /\ Name p = serf.Name m
  /\ Status p = serf.Status m
  /\ net.TCPAddr.IP (Addr p) = serf.Addr m.
Proof.
  intros E. cbv zeta. apply isNomadServer_spec in E.
  destruct E as (_ & Hn & Hi & Hre & Hd & Hb & _ & _ & _ & _ & _ & _ & Ha & _
                   & Hs).
  rewrite Hb, Hi, Hre, Hd, Hn, Hs, Ha. unfold index. simpl.
  split; [|split; [|split; [|split; [|split]]]].
  - rewrite bool_decide_eq_true. reflexivity.
  - now intros ->.
  - now intros v ->.
  - now intros ->.
  - now intros ->.
  - repeat split.
Qed.

(** X11: when the rpc_addr tag is an IP literal, the RPC address of an
    accepted record is that IP with the parsed port, while [Addr] stays the
    member's own address with the same port. *)
Theorem isNomadServer_rpc_addr_override
    (m : serf.Member) (p : serverParts) (ip : list Z) :
  isNomadServer m = (true, Some p) ->
  ParseIP (index (serf.Tags m) "rpc_addr") = Some ip ->
  RPCAddr p = net.TCPAddr.mk (Some ip) (Port p) ""
  /\ Addr p = net.TCPAddr.mk (serf.Addr m) (Port p) "".
Proof.
  intros E Hip. apply isNomadServer_spec in E.
  destruct E as (_ & _ & _ & _ & _ & _ & _ & _ & _ & _ & _ & _ & Ha & Hrp & _).
  rewrite Hrp, Ha. unfold rpcIPOf. rewrite Hip. split; reflexivity.
Qed.

(** ** nodeSupportsRpc and getNodeForRpc *)

Lemma nodeSupportsRpc_cases (minVersion : Version) (node : structs.Node) :
  nodeSupportsRpc minVersion node = None
  \/ nodeSupportsRpc minVersion node = Some ErrUnknownNomadVersion
  \/ nodeSupportsRpc minVersion node = Some ErrNodeLacksRpc.
Proof.
  unfold nodeSupportsRpc.
  destruct (_ !! _) as [raw|]; [|tauto].
  destruct (NewVersion raw) as [v|]; [|tauto].
  destruct (LessThan v minVersion); tauto.
Qed.

(** X12: [nodeSupportsRpc] looks at the attribute [nomad.version] alone;
    it returns no error or one of the two sentinel errors and nothing else;
    and it returns no error only for a version that parses and is not less
    than the threshold. *)
Theorem nodeSupportsRpc_frame (minVersion : Version) (a b : structs.Node) :
  (structs.Attributes a !! "nomad.version"
   = structs.Attributes b !! "nomad.version" ->
   nodeSupportsRpc minVersion a = nodeSupportsRpc minVersion b)
  /\ (nodeSupportsRpc minVersion a = None
      \/ nodeSupportsRpc minVersion a = Some ErrUnknownNomadVersion
      \/ nodeSupportsRpc minVersion a = Some ErrNodeLacksRpc)
  /\ (nodeSupportsRpc minVersion a = None ->
      exists raw v, structs.Attributes a !! "nomad.version" = Some raw
                    /\ NewVersion raw = Some v
                    /\ LessThan v minVersion = false).
Proof.
  unfold nodeSupportsRpc. split; [|split].
  - now intros ->.
  - apply nodeSupportsRpc_cases.
  - destruct (_ !! _) as [raw|]; [|discriminate].
    destruct (NewVersion raw) as [v|] eqn:Ev; [|discriminate].
    destruct (LessThan v minVersion) eqn:El; [discriminate|].
    intros _. now exists raw, v.
Qed.

(** X13: [getNodeForRpc] returns either a node and no error, or no node
    and an error: never both and never neither. *)
Theorem getNodeForRpc_node_xor_error
    (minVersion : Version) (snap : state.StateSnapshot) (nodeID : string) :
  (exists node, getNodeForRpc minVersion snap nodeID = (Some node, None))
  \/ (exists err, getNodeForRpc minVersion snap nodeID = (None, Some err)).
Proof.
  unfold getNodeForRpc, getNodeForRpcWith.
  destruct (state.NodeByID snap nodeID) as [[node|] [err|]]; eauto.
  destruct (nodeSupportsRpc minVersion node); eauto.
Qed.

(** X14: [getNodeForRpc] returns a node exactly when the lookup gave that
    node without an error and [nodeSupportsRpc] accepts it. *)
Theorem getNodeForRpc_success_iff
    (minVersion : Version) (snap : state.StateSnapshot) (nodeID : string)
    (node : structs.Node) :
  getNodeForRpc minVersion snap nodeID = (Some node, None)
  <-> state.NodeByID snap nodeID = (Some node, None)
      /\ nodeSupportsRpc minVersion node = None.
Proof.
  unfold getNodeForRpc, getNodeForRpcWith.
  destruct (state.NodeByID snap nodeID) as [[found|] [err|]].
  - split; [discriminate|intros [[=] _]].
  - destruct (nodeSupportsRpc minVersion found) eqn:E.
    + split; [discriminate|]. intros [Heq Hn]. injection Heq as Heq.
      rewrite Heq in E. congruence.
    + split; [intros [= ->]; now split|intros [[= ->] _]; reflexivity].
  - split; [discriminate|intros [[=] _]].
  - split; [discriminate|intros [[=] _]].
Qed.

(** X15: an error of [getNodeForRpc] is the error of the lookup, or the
    [Unknown node] error made from the ID when the lookup found nothing, or
    one of the two sentinel errors of [nodeSupportsRpc] on the node found. *)
Theorem getNodeForRpc_error_origin
    (minVersion : Version) (snap : state.StateSnapshot) (nodeID : string)
    (err : error) :
  getNodeForRpc minVersion snap nodeID = (None, Some err) ->
  snd (state.NodeByID snap nodeID) = Some err
  \/ (state.NodeByID snap nodeID = (None, None)
      /\ err = Errorf "Unknown node %q" [nodeID])
  \/ (exists node, state.NodeByID snap nodeID = (Some node, None)
                   /\ nodeSupportsRpc minVersion node = Some err
                   /\ (err = ErrUnknownNomadVersion \/ err = ErrNodeLacksRpc)).
Proof.
  unfold getNodeForRpc, getNodeForRpcWith.
  destruct (state.NodeByID snap nodeID) as [[found|] [e|]]; simpl.
  - intros [= ->]. now left.
  - destruct (nodeSupportsRpc minVersion found) as [e|] eqn:E; [|discriminate].
    intros [= ->]. right. right. exists found. split; [reflexivity|].
    split; [exact E|].
    destruct (nodeSupportsRpc_cases minVersion found) as [Hn|[Hu|Hl]];
      [congruence|left; congruence|right; congruence].
  - intros [= ->]. now left.
  - intros [= <-]. right. left. now split.
Qed.

(** X16: a false answer always has a culprit: a member of the list that is
    classified as a server, is alive, has a build strictly less than the
    minimum version, and does not have the numeric segments of the minimum
    version. *)
Theorem ServersMeetMinimumVersion_false_iff
    (members : list serf.Member) (minVersion : Version) :
  ServersMeetMinimumVersion members minVersion = false
  <-> exists m p, In m members
        /\ isNomadServer m = (true, Some p)
        /\ serf.Status m = serf.StatusAlive
        /\ LessThan (Build p) minVersion = true
        /\ Segments minVersion <> Segments (Build p).
Proof.
  assert (forall m, passes minVersion m = false
            <-> exists p, isNomadServer m = (true, Some p)
                  /\ serf.Status m = serf.StatusAlive
                  /\ LessThan (Build p) minVersion = true
                  /\ Segments minVersion <> Segments (Build p)) as Hone.
  { intros m. unfold passes.
    destruct (isNomadServer m) as [[|] [parts|]] eqn:E;
      try (split; [discriminate|intros (p & [=] & _)]).
    pose proof (isNomadServer_Status m parts E) as HS.
    case_bool_decide as Halive.
    - rewrite negb_false_iff, andb_true_iff, negb_true_iff.
      rewrite <- not_true_iff_false, slicesMatch_eq. split.
      + intros [Hl Hs]. exists parts. repeat split; congruence.
      + intros (p & [= <-] & _ & Hl & Hs). now split.
    - split; [discriminate|]. intros (p & [= <-] & Ha & _). congruence. }
  rewrite ServersMeetMinimumVersion_forallb.
  induction members as [|a rest IH]; simpl.
  - split; [discriminate|intros (m & p & [] & _)].
  - rewrite andb_false_iff, IH, Hone. split.
    + intros [(p & Hp)|(m & p & Hin & Hp)].
      * exists a, p. split; [now left|exact Hp].
      * exists m, p. split; [now right|exact Hp].
    + intros (m & p & [<-|Hin] & Hp).
      * left. now exists p.
      * right. now exists m, p.
Qed.

End MoreProperties.

(** Exchanging two elements of a list gives a permutation of it. *)
Lemma swap_Permutation {A : Type} (l : list A) (i j : nat) (x y : A) :
  l !! i = Some x -> l !! j = Some y ->
  Permutation (<[j := x]> (<[i := y]> l)) l.
Proof.
  intros Hi Hj.
  pose proof (lookup_lt_Some _ _ _ Hi) as Hli.
  pose proof (lookup_lt_Some _ _ _ Hj) as Hlj.
  apply Permutation_inj. split; [now rewrite !length_insert|].
  exists (fun k => if decide (k = i) then j else if decide (k = j) then i else k).
  split.
  - intros a b. repeat case_decide; intros; subst; congruence.
  - intros k. rewrite !list_lookup_insert, !length_insert.
    repeat case_decide; subst; try congruence; try lia;
      repeat match goal with H : ~ (_ /\ _) |- _ => apply not_and_l in H end;
      intuition (try congruence; try lia).
Qed.

Section ShuffleProperties.

Variable Source : Type.
Variable Intn : Source -> Z -> Z * Source.

(** [rand.Intn(n)] returns a number of the half-open interval [[0,n)]. *)
Hypothesis Intn_range : forall src n, 0 < n -> 0 <= fst (Intn src n) < n.

Lemma shuffleStringsLoop_Permutation (n i : nat) (src : Source)
    (l : list string) :
  (i + n = length l)%nat ->
  exists l' src', shuffleStringsLoop Source Intn n i src l = Some (l', src')
                  /\ Permutation l l'.
Proof.
  revert i src l. induction n as [|n IH]; intros i src l Hlen; simpl.
  - now exists l, src.
  - pose proof (Intn_range src (Z.of_nat i + 1) ltac:(lia)) as Hr.
    destruct (Intn src (Z.of_nat i + 1)) as [j src1]. simpl in Hr.
    destruct (Z.ltb_spec j 0); [lia|].
    destruct (Z.leb_spec (Z.of_nat (length l)) j); [lia|]. simpl.
    destruct (lookup_lt_is_Some_2 l i ltac:(lia)) as [atI HatI].
    destruct (lookup_lt_is_Some_2 l (Z.to_nat j) ltac:(lia)) as [atJ HatJ].
    rewrite HatI, HatJ.
    destruct (IH (S i) src1 (<[Z.to_nat j := atI]> (<[i := atJ]> l)))
      as (l' & src' & E & Hp).
    { rewrite !length_insert. lia. }
    exists l', src'. split; [exact E|].
    rewrite <- Hp. symmetry. now apply swap_Permutation.
Qed.

(** X4: with a generator that keeps [rand.Intn] within its range,
    [shuffleStrings] never indexes out of range and leaves a permutation of
    the list: the same length and the same strings, none lost and none
    doubled; a list of at most one string is unchanged. *)
Theorem shuffleStrings_Permutation (src : Source) (l : list string) :
  exists l' src', shuffleStrings Source Intn src l = Some (l', src')
                  /\ Permutation l l'
                  /\ length l' = length l
                  /\ (forall s, In s l' <-> In s l)
                  /\ ((length l <= 1)%nat -> l' = l).
Proof.
  destruct (shuffleStringsLoop_Permutation (length l) 0 src l eq_refl)
    as (l' & src' & E & Hp).
  exists l', src'. split; [exact E|split; [exact Hp|split; [|split]]].
  - symmetry. now apply Permutation_length.
  - intros s. split; apply Permutation_in; [now symmetry|exact Hp].
  - intros Hsmall. destruct l as [|x [|y l]]; simpl in Hsmall; [| |lia].
    + now apply Permutation_nil in Hp.
    + now apply Permutation_singleton_l in Hp.
Qed.

End ShuffleProperties.

(** ** The further properties on sample data *)

Example maxUint64_samples :
  maxUint64 [] = 0
  /\ maxUint64 [7] = 7
  /\ maxUint64 [3; 18446744073709551615; 5] = 18446744073709551615
  /\ maxUint64 [4; 4; 1] = 4.
Proof. vm_compute. repeat split. Qed.

Example shuffleStrings_samples :
  shuffleStrings Z sampleRand.Intn 42 ["a"; "b"; "c"; "d"]
  = Some (["b"; "a"; "d"; "c"], 1668674806)
  /\ shuffleStrings Z sampleRand.Intn 42 [] = Some ([], 42)
  /\ shuffleStrings Z (fun src n => (n, src)) 0 ["a"; "b"] = None.
Proof. vm_compute. repeat split. Qed.

(** X2 on two sample lists, one of them empty. *)
Lemma maxUint64_app_witness :
  maxUint64 ([] ++ [3; 9; 4]) = Z.max (maxUint64 []) (maxUint64 [3; 9; 4])
  /\ maxUint64 ([10; 2] ++ [3; 9; 4])
     = maxUint64 [maxUint64 [10; 2]; maxUint64 [3; 9; 4]].
Proof.
  assert (forall l, forallb (fun x => (0 <=? x) && (x <? 2 ^ 64)) l = true ->
            Forall isUint64 l) as Hu.
  { intros l Hl. apply List.Forall_forall. intros x Hx.
    rewrite forallb_forall in Hl. specialize (Hl x Hx). unfold isUint64. lia. }
  split.
  - apply (maxUint64_app [] [3; 9; 4]); apply Hu; reflexivity.
  - apply (maxUint64_app [10; 2] [3; 9; 4]); apply Hu; reflexivity.
Defined.

(** X3 on a list and the same list turned round. *)
Lemma maxUint64_Permutation_witness :
  maxUint64 [3; 9; 4] = maxUint64 [4; 9; 3].
Proof.
  apply maxUint64_Permutation.
  change [4; 9; 3] with (rev [3; 9; 4]). apply Permutation_rev.
Defined.

Lemma sampleRand_range (src n : Z) :
  0 < n -> 0 <= fst (sampleRand.Intn src n) < n.
Proof.
  intros Hn. unfold sampleRand.Intn. simpl. apply Z.mod_pos_bound, Hn.
Qed.

(** X4 with the sample generator. *)
Lemma shuffleStrings_Permutation_witness :
  exists l' src',
    shuffleStrings Z sampleRand.Intn 42 ["a"; "b"; "c"; "d"] = Some (l', src')
    /\ Permutation ["a"; "b"; "c"; "d"] l'.
Proof.
  destruct (shuffleStrings_Permutation Z sampleRand.Intn sampleRand_range 42
              ["a"; "b"; "c"; "d"]) as (l' & src' & E & Hp & _).
  exists l', src'. split; [exact E|exact Hp].
Defined.

(** X8: one more tag and another serf port change nothing. *)
Lemma isNomadServer_frame_witness :
  isNomadServer
    (serf.mkMember "nomad-server-3.global" (Some [10; 0; 0; 3]) 7946
       sampleMore.extraTags serf.StatusAlive)
  = isNomadServer sample.minimal.
Proof.
  apply (isNomadServer_frame sample.minimal sampleMore.extraTags 7946).
  intros k Hk. unfold sampleMore.extraTags.
  apply lookup_insert_ne. intros <-. vm_compute in Hk. intuition discriminate.
Defined.

Lemma isNomadServer_minimal :
  isNomadServer sample.minimal = (true, Some sampleMore.minimalDescriptor).
Proof. vm_compute. reflexivity. Qed.

(** X10 on the record with the mandatory tags only. *)
Lemma isNomadServer_defaults_witness :
  ID sampleMore.minimalDescriptor = "unknown"
  /\ Region sampleMore.minimalDescriptor = ""
  /\ Datacenter sampleMore.minimalDescriptor = "".
Proof.
  destruct (isNomadServer_defaults sample.minimal sampleMore.minimalDescriptor
              isNomadServer_minimal) as (_ & Hid & _ & Hre & Hdc & _).
  refine (conj (Hid _) (conj (Hre _) (Hdc _))); vm_compute; reflexivity.
Defined.

(** X11 on the sample server, whose rpc_addr tag is 10.0.0.9. *)
Lemma isNomadServer_rpc_addr_override_witness :
  RPCAddr sample.descriptor
  = net.TCPAddr.mk
      (Some [0; 0; 0; 0; 0; 0; 0; 0; 0; 0; 255; 255; 10; 0; 0; 9]) 4647 ""
  /\ Addr sample.descriptor = net.TCPAddr.mk (Some [10; 0; 0; 1]) 4647 "".
Proof.
  apply (isNomadServer_rpc_addr_override
           (sample.server "0.8.0-rc1" serf.StatusAlive) sample.descriptor
           [0; 0; 0; 0; 0; 0; 0; 0; 0; 0; 255; 255; 10; 0; 0; 9]).
  - exact isNomadServer_server.
  - vm_compute. reflexivity.
Defined.

(** X15 on a snapshot whose node is too old: the error is the sentinel of
    [nodeSupportsRpc]. *)
Lemma getNodeForRpc_error_origin_witness :
  snd (state.NodeByID sampleMore.oldSnapshot
         (structs.ID (sample.node "0.7.1"))) = Some ErrNodeLacksRpc
  \/ (state.NodeByID sampleMore.oldSnapshot
        (structs.ID (sample.node "0.7.1")) = (None, None)
      /\ ErrNodeLacksRpc
         = Errorf "Unknown node %q" [structs.ID (sample.node "0.7.1")])
  \/ (exists node,
        state.NodeByID sampleMore.oldSnapshot
          (structs.ID (sample.node "0.7.1")) = (Some node, None)
        /\ nodeSupportsRpc sample.threshold node = Some ErrNodeLacksRpc
        /\ (ErrNodeLacksRpc = ErrUnknownNomadVersion
            \/ ErrNodeLacksRpc = ErrNodeLacksRpc)).
Proof.
  apply (getNodeForRpc_error_origin sample.threshold sampleMore.oldSnapshot
           (structs.ID (sample.node "0.7.1")) ErrNodeLacksRpc).
  vm_compute. reflexivity.
Defined.
